(** * telegram_file_exporter: the per-message export pipeline

    A shallow embedding of [src/telegram_file_exporter/main.py]
    ([sanitize_filename], [get_post_url], [process_message] and the body of
    [export_documents]) and the properties of its specification that it
    satisfies or breaks.

    Conventions of the embedding:
    - Python [int] is [Z]; the float produced by the true division of the
      size check is the rational it denotes ([Q]), rounded the way CPython
      rounds [int / int];
    - Python [str] is [string]; file names are taken to consist of ASCII
      characters (the case and white-space functions leave the other code
      points alone);
    - the collaborators (Telethon's client, the file system, [open]) are the
      fields of an environment record [Env];
    - statements run in a state-and-exception monad [M]; the state holds the
      file system, the trace of calls made to the collaborators, and the
      local variables of [export_documents] that outlive an iteration;
    - informational [print]s are left out; the one of the [except] handler is
      the trace event [EvError]. *)

From Stdlib Require Import ZArith QArith List Bool Ascii String Lia.
From Stdlib Require Import DecimalString.
From Stdlib Require DecimalPos DecimalZ DecimalNat.
Import ListNotations.

Local Open Scope Z_scope.

(** ** Python string primitives *)

Module PyStr.

(** [str.lower] on a character of an ASCII string. On strings of ASCII
    characters [lower] below is [str.lower]; other code points, which
    [str.lower] also maps, are outside the model. *)
Definition lower_ascii (c : ascii) : ascii :=
  let n := nat_of_ascii c in
  if (Nat.leb 65 n && Nat.leb n 90)%bool then ascii_of_nat (n + 32) else c.

Fixpoint lower (s : string) : string :=
  match s with
  | EmptyString => EmptyString
  | String c s' => String (lower_ascii c) (lower s')
  end.

(** [str.isspace] on one ASCII character: TAB..CR, FS..US and space. On
    strings of ASCII characters [strip] below is [str.strip()]; the white
    space beyond ASCII, which [str.strip()] also removes, is outside the
    model. *)
Definition is_space (c : ascii) : bool :=
  let n := nat_of_ascii c in
  ((Nat.leb 9 n && Nat.leb n 13) || (Nat.leb 28 n && Nat.leb n 32))%bool.

Fixpoint lstrip (s : string) : string :=
  match s with
  | EmptyString => EmptyString
  | String c s' => if is_space c then lstrip s' else s
  end.

Fixpoint rstrip (s : string) : string :=
  match s with
  | EmptyString => EmptyString
  | String c s' =>
      match rstrip s' with
      | EmptyString => if is_space c then EmptyString else String c EmptyString
      | r => String c r
      end
  end.

(** [str.strip()] *)
Definition strip (s : string) : string := rstrip (lstrip s).

(** [str.rfind(c)]: index of the last occurrence, [-1] when there is none. *)
Fixpoint rfind_from (c : ascii) (s : string) (i last : Z) : Z :=
  match s with
  | EmptyString => last
  | String a s' => rfind_from c s' (i + 1) (if Ascii.eqb a c then i else last)
  end.

Definition rfind (c : ascii) (s : string) : Z := rfind_from c s 0 (-1).

(** [p[i:j]] for [0 <= i]. *)
Definition slice (p : string) (i j : Z) : string :=
  substring (Z.to_nat i) (Z.to_nat (j - i)) p.

(** [p[i:]] for [0 <= i]. *)
Definition slice_from (p : string) (i : Z) : string :=
  substring (Z.to_nat i) (String.length p - Z.to_nat i) p.

Fixpoint has_non_dot (s : string) : bool :=
  match s with
  | EmptyString => false
  | String c s' => if Ascii.eqb c "."%char then has_non_dot s' else true
  end.

(** [os.path.splitext(p)[-1]] (posixpath): the suffix from the last dot of
    the last path component, empty when that component has no dot or
    nothing but dots before its last one. *)
Definition splitext_ext (p : string) : string :=
  let sepIndex := rfind "/"%char p in
  let dotIndex := rfind "."%char p in
  if (sepIndex <? dotIndex)
  then if has_non_dot (slice p (sepIndex + 1) dotIndex)
       then slice_from p dotIndex
       else EmptyString
  else EmptyString.

Definition starts_with_slash (s : string) : bool :=
  match s with
  | String c _ => Ascii.eqb c "/"%char
  | EmptyString => false
  end.

Fixpoint ends_with_slash (s : string) : bool :=
  match s with
  | EmptyString => false
  | String c EmptyString => Ascii.eqb c "/"%char
  | String _ s' => ends_with_slash s'
  end.

(** [os.path.join(a, b)] (posixpath, two components). *)
Definition path_join (a b : string) : string :=
  if starts_with_slash b then b
  else match a with
       | EmptyString => b
       | _ => if ends_with_slash a then (a ++ b)%string
              else (a ++ "/" ++ b)%string
       end.

(** [str(n)] for an [int]. *)
Definition of_Z (n : Z) : string := NilZero.string_of_int (Z.to_int n).

(** A field of [strftime] padded with zeros to two digits. *)
Definition pad2 (n : nat) : string :=
  let s := NilZero.string_of_uint (Nat.to_uint n) in
  if Nat.ltb n 10 then String "0"%char s else s.

End PyStr.

(** ** The data the program reads *)

(** [datetime]: the fields [strftime] prints. *)
Record datetime := {
  year : nat; month : nat; day : nat;
  hour : nat; minute : nat; second : nat
}.

(** [strftime("%Y%m%d")], for the four-digit years of a message date. *)
Definition strftime_Ymd (d : datetime) : string :=
  (NilZero.string_of_uint (Nat.to_uint (year d))
     ++ PyStr.pad2 (month d) ++ PyStr.pad2 (day d))%string.

(** [strftime("%Y-%m-%d %H:%M:%S")] *)
Definition strftime_full (d : datetime) : string :=
  (NilZero.string_of_uint (Nat.to_uint (year d))
     ++ "-" ++ PyStr.pad2 (month d) ++ "-" ++ PyStr.pad2 (day d)
     ++ " " ++ PyStr.pad2 (hour d) ++ ":" ++ PyStr.pad2 (minute d)
     ++ ":" ++ PyStr.pad2 (second d))%string.

(** An element of [document.attributes]: only [DocumentAttributeFilename]
    has a [file_name]. *)
Inductive DocumentAttribute :=
| AttrFilename (file_name : string)
| AttrOther.

(** [telethon.tl.types.Document]: [size] is a TL [long]. *)
Record Document := {
  attributes : list DocumentAttribute;
  size : Z
}.

(** The values [message.media] is tested against: [None], a
    [MessageMediaDocument] (whose [document] field is optional), any other
    media object, and the [list] that line 153 provides for. *)
#[warnings="-register-all"]
Inductive Media :=
| MediaNone
| MessageMediaDocument (document : option Document)
| MediaOther
| MediaList (items : list Media).

Record Message := {
  msg_id : Z;
  date : datetime;
  media : Media
}.

(** The resolved entity: [username] is [None] when the attribute is absent
    or unset; [display_name] is what [get_display_name] returns. *)
Record Channel := {
  channel_id : Z;
  username : option string;
  display_name : string
}.

Inductive exn :=
| AttributeError
| OverflowError
| TypeError
| TransportError (what : string).

(** The dictionary [file_data] built by [process_message]. *)
Record FileData := {
  file_name : string;
  file_path : option string;
  post_url : string;
  file_exists : bool;
  fsize_mb : Q
}.

(** The dictionary [message_data] appended to [channel_data]. *)
Record ManifestEntry := {
  entry_file_name : string;
  entry_date_posted : string;
  entry_combined_name : string;
  entry_post_url : string
}.

Definition DEFAULT_ALLOWED_EXTENSIONS : list string :=
  [".zip"; ".tar"; ".gz"; ".7z"; ".rar"; ".xls"; ".xlsx"; ".csv"; ".txt";
   ".doc"; ".docx"]%string.

Definition DEFAULT_SIZE_LIMIT_MB : Z := 3 * 1024.

(** ** Pure helpers of the source *)

Definition sanitize_filename (message : Message) (file_name : string) : string :=
  (strftime_Ymd (date message) ++ "-" ++ file_name)%string.

(** [channel.username] is falsy when it is [None] or empty. *)
Definition get_post_url (channel : Channel) (message : Message) : string :=
  match username channel with
  | Some (String c u) =>
      ("https://t.me/" ++ String c u ++ "/" ++ PyStr.of_Z (msg_id message))%string
  | _ =>
      ("https://t.me/c/" ++ PyStr.of_Z (Z.abs (channel_id channel)) ++ "/"
         ++ PyStr.of_Z (msg_id message))%string
  end.

(** Line 157: the stripped [file_name] of the first attribute that has one,
    [None] when no attribute has. *)
Fixpoint first_file_name (attrs : list DocumentAttribute) : option string :=
  match attrs with
  | [] => None
  | AttrFilename n :: _ => Some (PyStr.strip n)
  | AttrOther :: rest => first_file_name rest
  end.

(** Line 171: [file_ext in (ext.lower() for ext in allowed_extensions)]. *)
Definition ext_in (file_ext : string) (allowed_extensions : list string) : bool :=
  existsb (String.eqb file_ext) (map PyStr.lower allowed_extensions).

(** ** The size in MiB: CPython's [int / int] *)

(** The nearest integer with a 53-bit significand, ties to even: the value
    of [float(b)] when it is finite. *)
Definition round53 (b : Z) : Z :=
  let a := Z.abs b in
  if a <? 2 ^ 53 then b
  else
    let e := Z.log2 a - 52 in
    let q := Z.shiftr a e in
    let r := a - Z.shiftl q e in
    let half := 2 ^ (e - 1) in
    let q' := if ((half <? r) || ((r =? half) && Z.odd q))%bool
              then q + 1 else q in
    Z.sgn b * Z.shiftl q' e.

(** [size / (1024 * 1024)]: the correctly rounded quotient; dividing by
    [2^20] only moves the exponent, so the rounding is that of [size]. The
    division raises [OverflowError] when the quotient is not below
    [2^1024]. *)
Definition true_div_mib (b : Z) : exn + Q :=
  let r := round53 b in
  if 2 ^ 1044 <=? Z.abs r then inl OverflowError
  else inr (r # (2 ^ 20)).

(** Line 177: [fsize_mb > maxsize_mb], a float against an [int], which
    Python compares exactly. *)
Definition exceeds (fsize : Q) (maxsize_mb : Z) : bool :=
  negb (Qle_bool fsize (inject_Z maxsize_mb)).

(** ** Collaborators, state and the monad of statements *)

(** The file system as [os.path.exists] sees it. *)
Definition FS := string -> bool.

(** Calls made to the collaborators, and the report of the handler. *)
Inductive Event :=
| EvExists (path : string)
| EvDownload (what : Media) (path : option string)
| EvSleep
| EvWrite (file : string) (key : string) (entries : list ManifestEntry)
| EvError (e : exn).

Record Env := {
  (** [client.get_entity(channel_name)] *)
  get_entity : string -> exn + Channel;
  (** [client.iter_messages(channel, limit=...)]: the messages it yields
      and, possibly, the exception that ends the iteration. *)
  iter_messages : Channel -> Z -> list Message * option exn;
  (** [client.download_media(media, path)]: the file system it leaves, or
      the exception it raises. *)
  download_media : Media -> option string -> FS -> exn + FS;
  (** [open(file, "w")]: the exception raised, if any. *)
  open_write : string -> option exn;
  (** [json.dump({key: rows}, jsonfile, indent=4)] into the opened [file]:
      the exception raised, if any. *)
  json_dump : string -> string -> list ManifestEntry -> option exn;
  (** [os.getcwd()] *)
  getcwd : string
}.

(** The file system, the trace, and the locals of [export_documents]. *)
Record State := {
  fs : FS;
  trace : list Event;
  processed : Z;
  files_downloaded : Z;
  files_existed : Z;
  channel_data : list ManifestEntry
}.

Definition M (A : Type) : Type := State -> (exn + A) * State.

Definition ret {A} (a : A) : M A := fun s => (inr a, s).

Definition raise {A} (e : exn) : M A := fun s => (inl e, s).

Definition bind {A B} (m : M A) (k : A -> M B) : M B :=
  fun s =>
    match m s with
    | (inr a, s') => k a s'
    | (inl e, s') => (inl e, s')
    end.

Declare Scope py_scope.
Delimit Scope py_scope with py.
Notation "x <- m ;; k" := (bind m (fun x => k))
  (at level 61, m at next level, right associativity) : py_scope.
Notation "m ;; k" := (bind m (fun _ => k))
  (at level 61, right associativity) : py_scope.
Local Open Scope py_scope.

Definition modify (f : State -> State) : M unit := fun s => (inr tt, f s).

Definition emit (ev : Event) : M unit :=
  modify (fun s =>
    {| fs := fs s; trace := trace s ++ [ev]; processed := processed s;
       files_downloaded := files_downloaded s;
       files_existed := files_existed s; channel_data := channel_data s |}).

Definition lift {A} (r : exn + A) : M A :=
  match r with
  | inl e => raise e
  | inr a => ret a
  end.

(** [os.path.exists(path)] *)
Definition path_exists (path : string) : M bool :=
  fun s => bind (emit (EvExists path)) (fun _ => ret (fs s path)) s.

(** [await client.download_media(media, path)] *)
Definition do_download (env : Env) (what : Media) (path : option string) : M unit :=
  fun s =>
    bind (emit (EvDownload what path)) (fun _ s1 =>
      match download_media env what path (fs s) with
      | inl e => (inl e, s1)
      | inr fs' =>
          (inr tt,
           {| fs := fs'; trace := trace s1; processed := processed s1;
              files_downloaded := files_downloaded s1;
              files_existed := files_existed s1;
              channel_data := channel_data s1 |})
      end) s.

Definition incr_processed : M unit :=
  modify (fun s =>
    {| fs := fs s; trace := trace s; processed := processed s + 1;
       files_downloaded := files_downloaded s;
       files_existed := files_existed s; channel_data := channel_data s |}).

Definition incr_downloaded : M unit :=
  modify (fun s =>
    {| fs := fs s; trace := trace s; processed := processed s;
       files_downloaded := files_downloaded s + 1;
       files_existed := files_existed s; channel_data := channel_data s |}).

Definition incr_existed : M unit :=
  modify (fun s =>
    {| fs := fs s; trace := trace s; processed := processed s;
       files_downloaded := files_downloaded s;
       files_existed := files_existed s + 1; channel_data := channel_data s |}).

Definition append_entry (e : ManifestEntry) : M unit :=
  modify (fun s =>
    {| fs := fs s; trace := trace s; processed := processed s;
       files_downloaded := files_downloaded s;
       files_existed := files_existed s;
       channel_data := channel_data s ++ [e] |}).

(** Line 247: [files_downloaded, files_existed, processed = 0, 0, 0] and
    [channel_data = []]. *)
Definition init_locals : M unit :=
  modify (fun s =>
    {| fs := fs s; trace := trace s; processed := 0;
       files_downloaded := 0; files_existed := 0; channel_data := [] |}).

(** What a successful [open(file, "w")] leaves: the file is there. *)
Definition create_file (file : string) : M unit :=
  modify (fun s =>
    {| fs := fun p => (String.eqb p file || fs s p)%bool;
       trace := trace s; processed := processed s;
       files_downloaded := files_downloaded s;
       files_existed := files_existed s; channel_data := channel_data s |}).

(** ** [process_message] *)

Section ProcessMessage.

Variable message : Message.
Variable channel : Channel.
Variable allowed_extensions : list string.
Variable maxsize_mb : Z.
Variable download_dir : string.
Variable mode : string.

(** [doc.document.attributes] and [doc.document.size]: the document of an
    element of [media]; anything else has no such attribute. *)
Definition doc_document (doc : Media) : M Document :=
  match doc with
  | MessageMediaDocument (Some d) => ret d
  | _ => raise AttributeError
  end.

(** The body of [for doc in media] (lines 157-201): [None] stands for
    [continue], [Some file_data] for [files_data.append(file_data)]. *)
Definition process_doc (doc : Media) : M (option FileData) :=
  d <- doc_document doc ;;
  match first_file_name (attributes d) with
  | None => ret None
  | Some EmptyString => ret None
  | Some file_name =>
      let file_ext := PyStr.lower (PyStr.splitext_ext file_name) in
      if negb (ext_in file_ext allowed_extensions) then ret None
      else
        fsize_mb <- lift (true_div_mib (size d)) ;;
        if exceeds fsize_mb maxsize_mb then ret None
        else
          let combined_name := sanitize_filename message file_name in
          let post_url := get_post_url channel message in
          pe <- (if String.eqb mode "download"
                 then
                   let file_path := PyStr.path_join download_dir combined_name in
                   ex <- path_exists file_path ;;
                   ret (Some file_path, ex)
                 else ret (None, false)) ;;
          ret (Some {| file_name := file_name;
                       file_path := fst pe;
                       post_url := post_url;
                       file_exists := snd pe;
                       fsize_mb := fsize_mb |})
  end.

(** [for doc in media: ...] accumulating into [files_data]. *)
Fixpoint process_docs (media : list Media) (files_data : list FileData)
  : M (list FileData) :=
  match media with
  | [] => ret files_data
  | doc :: rest =>
      r <- process_doc doc ;;
      match r with
      | None => process_docs rest files_data
      | Some file_data => process_docs rest (files_data ++ [file_data])
      end
  end.

(** [not message.media]: [None] and the empty list are falsy. *)
Definition media_falsy (m : Media) : bool :=
  match m with
  | MediaNone => true
  | MediaList [] => true
  | _ => false
  end.

(** [isinstance(message.media, MessageMediaDocument)] *)
Definition is_MessageMediaDocument (m : Media) : bool :=
  match m with
  | MessageMediaDocument _ => true
  | _ => false
  end.

(** Line 152: [message.media if isinstance(message.media, list) else
    [message.media]]. *)
Definition media_list (m : Media) : list Media :=
  match m with
  | MediaList items => items
  | _ => [m]
  end.

Definition process_message : M (list FileData) :=
  if (media_falsy (media message)
      || negb (is_MessageMediaDocument (media message)))%bool
  then ret []
  else process_docs (media_list (media message)) [].

End ProcessMessage.

(** ** [export_documents] *)

(** The parameters of [export_documents] ([api_id] and [api_hash] only
    reach the client's constructor). *)
Record Args := {
  channel_name : string;
  output_file : option string;
  max_limit : Z;
  mode : string;
  output : bool;
  download_dir : option string;
  maxsize_mb : Z;
  allowed_extensions : option (list string)
}.

(** Line 233: [allowed_extensions or DEFAULT_ALLOWED_EXTENSIONS]. *)
Definition effective_extensions (a : Args) : list string :=
  match allowed_extensions a with
  | None | Some [] => DEFAULT_ALLOWED_EXTENSIONS
  | Some l => l
  end.

(** Line 234: [download_dir or os.getcwd()]. *)
Definition effective_download_dir (env : Env) (a : Args) : string :=
  match download_dir a with
  | None | Some EmptyString => getcwd env
  | Some d => d
  end.

Definition message_data (message : Message) (file_data : FileData) : ManifestEntry :=
  {| entry_file_name := file_name file_data;
     entry_date_posted := strftime_full (date message);
     entry_combined_name := sanitize_filename message (file_name file_data);
     entry_post_url := post_url file_data |}.

Section ExportDocuments.

Variable env : Env.
Variable a : Args.

(** The body of [for file_data in files_data] (lines 267-284). *)
Definition handle_file (message : Message) (file_data : FileData) : M unit :=
  append_entry (message_data message file_data) ;;
  if (String.eqb (mode a) "download" && negb (file_exists file_data))%bool
  then
    do_download env (media message) (file_path file_data) ;;
    incr_downloaded
  else if file_exists file_data then incr_existed
  else ret tt.

Fixpoint handle_files (message : Message) (files_data : list FileData) : M unit :=
  match files_data with
  | [] => ret tt
  | file_data :: rest =>
      handle_file message file_data ;;
      handle_files message rest
  end.

(** One pass through the body of the [async for], up to the test of the
    bound (lines 252-288). *)
Definition process_one (channel : Channel) (message : Message) : M unit :=
  incr_processed ;;
  files_data <- process_message message channel (effective_extensions a)
                  (maxsize_mb a) (effective_download_dir env a) (mode a) ;;
  handle_files message files_data ;;
  emit EvSleep.

(** The [async for] over what the source yields; [ending] is the
    exception the source raises instead of stopping, if any. *)
Fixpoint iterate (channel : Channel) (messages : list Message)
         (ending : option exn) : M unit :=
  match messages with
  | [] =>
      match ending with
      | Some e => raise e
      | None => ret tt
      end
  | message :: rest =>
      process_one channel message ;;
      fun s =>
        if max_limit a <=? processed s then ret tt s
        else iterate channel rest ending s
  end.

(** Lines 293-299: [open] creates or truncates the file before [json.dump]
    runs; [EvWrite] records a manifest that was written in full. *)
Definition write_output (channel : Channel) : M unit :=
  if output a then
    match output_file a with
    | None => raise TypeError
    | Some file =>
        match open_write env file with
        | Some e => raise e
        | None =>
            create_file file ;;
            fun s =>
              match json_dump env file (display_name channel) (channel_data s) with
              | Some e => raise e s
              | None =>
                  emit (EvWrite file (display_name channel) (channel_data s)) s
              end
        end
    end
  else ret tt.

(** The [try] block (lines 244-299). *)
Definition export_try : M unit :=
  channel <- lift (get_entity env (channel_name a)) ;;
  init_locals ;;
  (let src := iter_messages env channel (max_limit a) in
   iterate channel (fst src) (snd src)) ;;
  write_output channel.

Definition start (fs0 : FS) : State :=
  {| fs := fs0; trace := []; processed := 0; files_downloaded := 0;
     files_existed := 0; channel_data := [] |}.

(** The body of the [async with]: the [try] block and its handler, run
    from a connected client and the file system [fs0]. The first component
    tells how the [try] block ended. *)
Definition export_documents (fs0 : FS) : option exn * State :=
  match export_try (start fs0) with
  | (inr _, s) => (None, s)
  | (inl e, s) => (Some e, snd (emit (EvError e) s))
  end.

End ExportDocuments.

(** ** Admissibility, as the specification words it *)

(** The name the extraction loop finds for a document ([""] when none). *)
Definition attachment_name (d : Document) : string :=
  match first_file_name (attributes d) with
  | Some n => n
  | None => EmptyString
  end.

(** The attachment has a non-empty file name. *)
Definition has_name (d : Document) : bool :=
  match first_file_name (attributes d) with
  | Some (String _ _) => true
  | _ => false
  end.

(** Its extension, the lower-cased suffix of the name, is in the allowed
    set. *)
Definition extension_allowed (exts : list string) (d : Document) : bool :=
  ext_in (PyStr.lower (PyStr.splitext_ext (attachment_name d))) exts.

(** Its size in MiB is at most the ceiling. *)
Definition size_within (limit : Z) (d : Document) : bool :=
  match true_div_mib (size d) with
  | inr f => Qle_bool f (inject_Z limit)
  | inl _ => false
  end.

Definition admissible (exts : list string) (limit : Z) (d : Document) : bool :=
  (has_name d && extension_allowed exts d && size_within limit d)%bool.

(** The documents of a message that the guard of line 146 lets through to
    the extraction loop: the code's notion, under which a message whose
    media is a list has none ([documents_of] is the specification's). *)
Definition attachments (m : Message) : list Document :=
  match media m with
  | MessageMediaDocument (Some d) => [d]
  | _ => []
  end.

(** The document a media object carries, if any. *)
Definition media_documents (x : Media) : list Document :=
  match x with
  | MessageMediaDocument (Some d) => [d]
  | _ => []
  end.

(** The documents attached to a message, zero or more, as the
    specification has them: those of every media object of the message. *)
Definition documents_of (m : Message) : list Document :=
  match media m with
  | MediaList items => flat_map media_documents items
  | x => media_documents x
  end.

(** The manifest row of an attachment of a message. *)
Definition entry_for (channel : Channel) (m : Message) (d : Document) : ManifestEntry :=
  {| entry_file_name := attachment_name d;
     entry_date_posted := strftime_full (date m);
     entry_combined_name := sanitize_filename m (attachment_name d);
     entry_post_url := get_post_url channel m |}.

(** The rows a message contributes: one per admissible attachment. *)
Definition entries_of (exts : list string) (limit : Z) (channel : Channel)
           (m : Message) : list ManifestEntry :=
  map (entry_for channel m) (filter (admissible exts limit) (attachments m)).

(** The event is a call to the manifest writer. *)
Definition is_write (ev : Event) : bool :=
  match ev with
  | EvWrite _ _ _ => true
  | _ => false
  end.

(** ** Auxiliary notions of the statements *)

(** What the loop body leaves for a document that passed the checks. *)
Definition accepted (message : Message) (channel : Channel) (dir mode : string)
           (d : Document) (f : Q) (s : State)
  : (exn + option FileData) * State :=
  if String.eqb mode "download" then
    let path := PyStr.path_join dir (sanitize_filename message (attachment_name d)) in
    (inr (Some {| file_name := attachment_name d;
                  file_path := Some path;
                  post_url := get_post_url channel message;
                  file_exists := fs s path;
                  fsize_mb := f |}),
     snd (emit (EvExists path) s))
  else
    (inr (Some {| file_name := attachment_name d;
                  file_path := None;
                  post_url := get_post_url channel message;
                  file_exists := false;
                  fsize_mb := f |}),
     s).

(** A [file_data] for which the file system was not consulted. *)
Definition unprobed (file_data : FileData) : Prop :=
  file_path file_data = None /\ file_exists file_data = false.

(** A stretch of the trace without a call to the writer. *)
Definition quiet (evs : list Event) : Prop :=
  forallb (fun ev => negb (is_write ev)) evs = true.

(** The state in which the loop starts. *)
Definition loop_start (fs0 : FS) : State := snd (init_locals (start fs0)).

(** ** Sample data *)

Module Samples.

Definition posted : datetime :=
  {| year := 2024; month := 1; day := 5; hour := 3; minute := 4; second := 59 |}.

Definition csv_doc : Document :=
  {| attributes := [AttrOther; AttrFilename "report.csv"]; size := 2048 |}.

Definition exe_doc : Document :=
  {| attributes := [AttrFilename "setup.exe"]; size := 4096 |}.

Definition news : Channel :=
  {| channel_id := -1001234; username := Some "news"%string;
     display_name := "News" |}.

Definition csv_message (n : Z) : Message :=
  {| msg_id := n; date := posted;
     media := MessageMediaDocument (Some csv_doc) |}.

(** A message whose media is the list of two documents. *)
Definition two_documents : Message :=
  {| msg_id := 42; date := posted;
     media := MediaList [MessageMediaDocument (Some csv_doc);
                         MessageMediaDocument (Some exe_doc)] |}.

(** A [MessageMediaDocument] whose [document] is [None]. *)
Definition hollow_message : Message :=
  {| msg_id := 41; date := posted; media := MessageMediaDocument None |}.

Definition csv_path : string := "/data/20240105-report.csv".

(** A client that resolves every name to [news], yields [messages]
    whatever the limit, and whose downloads succeed and create the file. *)
Definition client (messages : list Message) : Env :=
  {| get_entity := fun _ => inr news;
     iter_messages := fun _ _ => (messages, None);
     download_media := fun _ path files =>
       inr (fun p => match path with
                     | Some q => (String.eqb p q || files p)%bool
                     | None => files p
                     end);
     open_write := fun _ => None;
     json_dump := fun _ _ _ => None;
     getcwd := "/data" |}.


Definition args (max : Z) (m : string) : Args :=
  {| channel_name := "news"; output_file := Some "20240106-news.json"%string;
     max_limit := max; mode := m; output := true; download_dir := None;
     maxsize_mb := DEFAULT_SIZE_LIMIT_MB; allowed_extensions := None |}.

Definition empty_fs : FS := fun _ => false.

Definition csv_present : FS := fun p => String.eqb p csv_path.

End Samples.

(** ** [main] *)

(** [c in s] for a one-character [c]. *)
Fixpoint str_contains (c : ascii) (s : string) : bool :=
  match s with
  | EmptyString => false
  | String a s' => (Ascii.eqb a c || str_contains c s')%bool
  end.

(** [s.replace(old, "")] for a one-character [old]. *)
Fixpoint remove_char (old : ascii) (s : string) : string :=
  match s with
  | EmptyString => EmptyString
  | String a s' =>
      if Ascii.eqb a old then remove_char old s'
      else String a (remove_char old s')
  end.

(** [s.replace(old, new)] for one-character [old] and [new]. *)
Fixpoint replace_char (old new : ascii) (s : string) : string :=
  match s with
  | EmptyString => EmptyString
  | String a s' =>
      String (if Ascii.eqb a old then new else a) (replace_char old new s')
  end.

(** The namespace [cli] returns, as far as [main] reads it. [args.channel]
    is [None] when [-c] is not given; [args.output] is left out, being
    [True] in every namespace ([store_true] with default [True]);
    [args.api_id] and [args.api_hash] only reach the client. *)
Record Namespace := {
  arg_channel : option string;
  arg_max : Z;
  arg_mode : string;
  arg_download_dir : option string;
  arg_size_limit : Z;
  arg_extensions : list string
}.

(** Lines 313-315: the name of the manifest file. *)
Definition output_filename (today : datetime) (channel : string) : string :=
  let timestamp := strftime_Ymd today in
  let channel_name_sanitized :=
    replace_char "/"%char "_"%char (remove_char "@"%char channel) in
  (timestamp ++ "-" ++ channel_name_sanitized ++ ".json")%string.

(** The arguments [main] hands to [export_documents]. *)
Definition main_args (today : datetime) (args : Namespace) (channel : string) : Args :=
  {| channel_name := channel;
     output_file := Some (output_filename today channel);
     max_limit := arg_max args;
     mode := arg_mode args;
     output := true;
     download_dir := arg_download_dir args;
     maxsize_mb := arg_size_limit args;
     allowed_extensions := Some (arg_extensions args) |}.

(** [main], from the parsed namespace and the date [datetime.now()] gives;
    [args.channel.replace] raises when the channel is [None]. *)
Definition main (env : Env) (today : datetime) (args : Namespace) (fs0 : FS)
  : exn + (option exn * State) :=
  match arg_channel args with
  | None => inl AttributeError
  | Some channel => inr (export_documents env (main_args today args channel) fs0)
  end.

(** ** Further notions of the statements *)

(** Every character of the string is white space (so is the empty one). *)
Fixpoint blank (s : string) : bool :=
  match s with
  | EmptyString => true
  | String c s' => (PyStr.is_space c && blank s')%bool
  end.

Definition first_char_is_space (s : string) : bool :=
  match s with
  | String c _ => PyStr.is_space c
  | EmptyString => false
  end.

Fixpoint last_char_is_space (s : string) : bool :=
  match s with
  | EmptyString => false
  | String c EmptyString => PyStr.is_space c
  | String _ s' => last_char_is_space s'
  end.

Definition is_sleep (ev : Event) : bool :=
  match ev with
  | EvSleep => true
  | _ => false
  end.

(** The event is a call that reads or changes the file system on behalf of
    the download decision. *)
Definition is_fs_access (ev : Event) : bool :=
  match ev with
  | EvExists _ | EvDownload _ _ => true
  | _ => false
  end.

Definition is_download (ev : Event) : bool :=
  match ev with
  | EvDownload _ _ => true
  | _ => false
  end.

(** A stretch of the trace that leaves the file system alone. *)
Definition calm (evs : list Event) : Prop :=
  forallb (fun ev => negb (is_fs_access ev)) evs = true.

(** The number of events of a kind in a trace. *)
Definition count_events (kind : Event -> bool) (evs : list Event) : nat :=
  List.length (filter kind evs).

(** The rows of the manifest that neither counter has counted. *)
Definition uncounted (s : State) : Z :=
  Z.of_nat (List.length (channel_data s))
  - (files_downloaded s + files_existed s).

(** The string holds ASCII characters only. *)
Fixpoint ascii_only (s : string) : bool :=
  match s with
  | EmptyString => true
  | String c s' => (Nat.ltb (nat_of_ascii c) 128 && ascii_only s')%bool
  end.

Definition is_digit (c : ascii) : bool :=
  let n := nat_of_ascii c in (Nat.leb 48 n && Nat.leb n 57)%bool.

Fixpoint all_digits (s : string) : bool :=
  match s with
  | EmptyString => true
  | String c s' => (is_digit c && all_digits s')%bool
  end.

(** Reading a printed number back. *)
Definition read_nat (s : string) : option nat :=
  option_map Nat.of_uint (NilEmpty.uint_of_string s).

(** The row of the manifest satisfies the filter: its name is not empty, is
    its own [strip], and has an allowed extension. *)
Definition row_ok (exts : list string) (row : ManifestEntry) : Prop :=
  entry_file_name row <> EmptyString
  /\ PyStr.strip (entry_file_name row) = entry_file_name row
  /\ ext_in (PyStr.lower (PyStr.splitext_ext (entry_file_name row))) exts = true.

Module Cases.

Definition day : datetime :=
  {| year := 2024; month := 3; day := 9; hour := 23; minute := 0; second := 1 |}.

Definition parsed (channel : option string) : Namespace :=
  {| arg_channel := channel; arg_max := 100; arg_mode := "list";
     arg_download_dir := None; arg_size_limit := DEFAULT_SIZE_LIMIT_MB;
     arg_extensions := map PyStr.lower DEFAULT_ALLOWED_EXTENSIONS |}.

Definition private_channel (n : Z) : Channel :=
  {| channel_id := n; username := None; display_name := "Private" |}.

(** A document whose first file-name attribute is blank. *)
Definition blank_doc : Document :=
  {| attributes := [AttrFilename "   "; AttrFilename "report.csv"]; size := 10 |}.

(** A client whose transfers always fail. *)
Definition failing_client (messages : list Message) : Env :=
  {| get_entity := fun _ => inr Samples.news;
     iter_messages := fun _ _ => (messages, None);
     download_media := fun _ _ _ => inl (TransportError "flood wait");
     open_write := fun _ => None;
     json_dump := fun _ _ _ => None;
     getcwd := "/data" |}.


End Cases.

(** * Properties *)

(** ** Strings *)

Lemma lower_empty_iff (s : string) : PyStr.lower s = EmptyString <-> s = EmptyString.
Proof.
  destruct s; simpl; split; intro H; try reflexivity; discriminate H.
Qed.

Lemma existsb_eqb_In (x : string) (l : list string) :
  existsb (String.eqb x) l = true <-> In x l.
Proof.
  rewrite existsb_exists. split.
  - intros [y [Hin Heq]]. apply String.eqb_eq in Heq. now subst.
  - intro Hin. exists x. split; [assumption | apply String.eqb_refl].
Qed.

Lemma ext_in_spec (e : string) (exts : list string) :
  ext_in e exts = true <-> exists x, PyStr.lower x = e /\ In x exts.
Proof.
  unfold ext_in. rewrite existsb_eqb_In, in_map_iff. reflexivity.
Qed.

(** ** The size check *)

Lemma round53_small (b : Z) : Z.abs b < 2 ^ 53 -> round53 b = b.
Proof.
  intro H. unfold round53. apply Z.ltb_lt in H. now rewrite H.
Qed.

Lemma round53_exact (b : Z) : Z.abs b <= 2 ^ 53 -> round53 b = b.
Proof.
  intro H.
  destruct (Z.eq_dec (Z.abs b) (2 ^ 53)) as [E | E].
  - destruct (Z.abs_eq_or_opp b) as [Hb | Hb]; rewrite Hb in E.
    + subst b. vm_compute. reflexivity.
    + assert (b = - 2 ^ 53) by lia. subst b. vm_compute. reflexivity.
  - apply round53_small. lia.
Qed.

Lemma true_div_mib_exact (b : Z) :
  Z.abs b <= 2 ^ 53 -> true_div_mib b = inr (b # (2 ^ 20)).
Proof.
  intro H. unfold true_div_mib. rewrite (round53_exact b H).
  destruct (2 ^ 1044 <=? Z.abs b) eqn:E; [|reflexivity].
  apply Z.leb_le in E.
  assert (2 ^ 53 < 2 ^ 1044) by (apply Z.pow_lt_mono_r; lia).
  lia.
Qed.

(** Beyond [2^53] bytes the quotient is rounded before it is compared: one
    byte over [2^33] MiB computes as [2^33] MiB. *)
Lemma true_div_mib_rounds :
  true_div_mib (2 ^ 53 + 1) = inr (2 ^ 53 # (2 ^ 20))
  /\ exceeds (2 ^ 53 # (2 ^ 20)) (2 ^ 33) = false.
Proof.
  split; vm_compute; reflexivity.
Qed.

Lemma exceeds_false_iff (f : Q) (L : Z) :
  exceeds f L = false <-> (f <= inject_Z L)%Q.
Proof.
  unfold exceeds. rewrite negb_false_iff. apply Qle_bool_iff.
Qed.

(** C5. The size check keeps a document exactly when the MiB value computed
    by [size / (1024 * 1024)] is at most the limit; that value is the exact
    quotient for every size up to [2^53] bytes; and a value equal to the
    limit is kept. *)
Theorem size_check_non_strict (b L : Z) (f : Q) :
  true_div_mib b = inr f ->
  (exceeds f L = false <-> (f <= inject_Z L)%Q)
  /\ (Z.abs b <= 2 ^ 53 ->
      f = (b # (2 ^ 20))
      /\ (exceeds f L = false <-> b <= L * (1024 * 1024)))
  /\ ((f == inject_Z L)%Q -> exceeds f L = false).
Proof.
  intro Hf. split; [apply exceeds_false_iff|]. split.
  - intro Hb. rewrite (true_div_mib_exact b Hb) in Hf.
    injection Hf as <-. split; [reflexivity|].
    rewrite exceeds_false_iff. unfold Qle, inject_Z. simpl.
    change (Z.pos (2 ^ 20)) with (1024 * 1024). lia.
  - intro He. apply exceeds_false_iff. rewrite He. apply Qle_refl.
Qed.

(** Three MiB against a limit of three: computed as [3], and kept. *)
Lemma size_check_non_strict_witness :
  true_div_mib (3 * 1024 * 1024) = inr ((3 * 1024 * 1024) # (2 ^ 20))
  /\ exceeds ((3 * 1024 * 1024) # (2 ^ 20)) 3 = false.
Proof.
  split; [reflexivity|].
  refine (proj2 (proj2 (size_check_non_strict (3 * 1024 * 1024) 3
                          ((3 * 1024 * 1024) # (2 ^ 20)) _)) _);
    reflexivity.
Defined.

(** ** The extension check *)

Lemma ext_in_empty_iff (S : list string) :
  ext_in EmptyString S = true <-> In EmptyString S.
Proof.
  rewrite ext_in_spec. split.
  - intros [x [Hx Hin]]. apply (proj1 (lower_empty_iff x)) in Hx. now subst.
  - intro Hin. exists EmptyString. split; [reflexivity | assumption].
Qed.

(** C6, as the specification states it, fails: with the empty string among
    the allowed extensions, the empty extension is allowed, and a document
    named [README] passes the extraction. *)
Lemma empty_extension_allowed_when_listed :
  ~ (forall S : list string, ext_in EmptyString S = false)
  /\ ext_in (PyStr.lower (PyStr.splitext_ext "README")) [EmptyString] = true
  /\ admissible [EmptyString] 1
       {| attributes := [AttrFilename "README"]; size := 10 |} = true.
Proof.
  split; [|split; reflexivity].
  intro H. specialize (H [EmptyString]). discriminate H.
Qed.

(** C6, amended. The empty extension is refused exactly by the sets that do
    not list the empty string; the default set is one of them. *)
Theorem empty_extension_refused_iff_unlisted :
  (forall S : list string,
      ext_in EmptyString S = false <-> ~ In EmptyString S)
  /\ ext_in EmptyString DEFAULT_ALLOWED_EXTENSIONS = false.
Proof.
  split; [|reflexivity].
  intro S. rewrite <- ext_in_empty_iff.
  destruct (ext_in EmptyString S); split; intro H.
  - discriminate H.
  - exfalso. apply H. reflexivity.
  - intro H'. discriminate H'.
  - reflexivity.
Qed.

(** ** One document through the loop body *)

Section ProcessDocFacts.

Variable message : Message.
Variable channel : Channel.
Variable exts : list string.
Variable limit : Z.
Variable dir : string.
Variable mode : string.

Lemma process_doc_document (d : Document) (s : State) :
  process_doc message channel exts limit dir mode
    (MessageMediaDocument (Some d)) s
  = if (has_name d && extension_allowed exts d)%bool then
      match true_div_mib (size d) with
      | inl e => (inl e, s)
      | inr f =>
          if Qle_bool f (inject_Z limit) then accepted message channel dir mode d f s
          else (inr None, s)
      end
    else (inr None, s).
Proof.
  unfold process_doc, has_name, extension_allowed, accepted, attachment_name.
  unfold bind at 1. simpl.
  destruct (first_file_name (attributes d)) as [[|c n]|]; simpl; try reflexivity.
  destruct (ext_in _ exts); simpl; [|reflexivity].
  unfold bind at 1.
  destruct (true_div_mib (size d)) as [e|f]; simpl; [reflexivity|].
  unfold exceeds. destruct (Qle_bool f (inject_Z limit)); simpl; [|reflexivity].
  destruct (String.eqb mode "download"); reflexivity.
Qed.

Lemma process_doc_not_document (doc : Media) (s : State) :
  (forall d, doc <> MessageMediaDocument (Some d)) ->
  process_doc message channel exts limit dir mode doc s = (inl AttributeError, s).
Proof.
  intro H. destruct doc as [|[d|]| |items]; try reflexivity.
  exfalso. now apply (H d).
Qed.

(** A kept document is an admissible one, and the rejected ones leave the
    state alone. *)
Lemma process_doc_admissible (d : Document) (s : State) :
  admissible exts limit d = true ->
  exists f, true_div_mib (size d) = inr f
            /\ process_doc message channel exts limit dir mode
                 (MessageMediaDocument (Some d)) s
     = accepted message channel dir mode d f s.
Proof.
  unfold admissible, size_within. rewrite process_doc_document.
  destruct (has_name d && extension_allowed exts d)%bool; simpl; [|discriminate].
  destruct (true_div_mib (size d)) as [e|f]; [discriminate|].
  intro H. rewrite H. now exists f.
Qed.

Lemma process_doc_inadmissible (d : Document) (s : State) :
  admissible exts limit d = false ->
  process_doc message channel exts limit dir mode
    (MessageMediaDocument (Some d)) s = (inr None, s)
  \/ process_doc message channel exts limit dir mode
       (MessageMediaDocument (Some d)) s = (inl OverflowError, s).
Proof.
  unfold admissible, size_within. rewrite process_doc_document.
  destruct (has_name d && extension_allowed exts d)%bool; simpl; [|now left].
  unfold true_div_mib.
  destruct (2 ^ 1044 <=? Z.abs (round53 (size d))); [now right|].
  intro H. rewrite H. now left.
Qed.

End ProcessDocFacts.

(** ** [process_message] on one message *)

Section ProcessMessageFacts.

Variable message : Message.
Variable channel : Channel.
Variable exts : list string.
Variable limit : Z.
Variable dir : string.
Variable mode : string.

Let run_doc := process_doc message channel exts limit dir mode.
Let run_message := process_message message channel exts limit dir mode.

Lemma process_message_media_document (od : option Document) (s : State) :
  media message = MessageMediaDocument od ->
  run_message s
  = match run_doc (MessageMediaDocument od) s with
    | (inr (Some file_data), s') => (inr [file_data], s')
    | (inr None, s') => (inr [], s')
    | (inl e, s') => (inl e, s')
    end.
Proof.
  intro H. unfold run_message, run_doc, process_message. rewrite H. simpl.
  unfold bind.
  destruct (process_doc message channel exts limit dir mode
              (MessageMediaDocument od) s) as [[e|[fd|]] s']; reflexivity.
Qed.

Lemma process_message_other_media (s : State) :
  is_MessageMediaDocument (media message) = false ->
  run_message s = (inr [], s).
Proof.
  intro H. unfold run_message, process_message. rewrite H.
  now rewrite orb_true_r.
Qed.

(** What [process_message] returns and leaves, case by case. *)
Lemma process_message_cases (s : State) :
  run_message s
  = match media message with
    | MessageMediaDocument (Some d) =>
        if (has_name d && extension_allowed exts d)%bool then
          match true_div_mib (size d) with
          | inl e => (inl e, s)
          | inr f =>
              if Qle_bool f (inject_Z limit) then
                match accepted message channel dir mode d f s with
                | (inr (Some file_data), s') => (inr [file_data], s')
                | (_, s') => (inr [], s')
                end
              else (inr [], s)
          end
        else (inr [], s)
    | MessageMediaDocument None => (inl AttributeError, s)
    | _ => (inr [], s)
    end.
Proof.
  destruct (media message) as [|[d|]| |items] eqn:Hm;
    try (apply process_message_other_media; rewrite Hm; reflexivity).
  - rewrite (process_message_media_document (Some d) s Hm).
    unfold run_doc. rewrite process_doc_document.
    destruct (has_name d && extension_allowed exts d)%bool; [|reflexivity].
    destruct (true_div_mib (size d)) as [e|f]; [reflexivity|].
    destruct (Qle_bool f (inject_Z limit)); [|reflexivity].
    unfold accepted. destruct (String.eqb mode "download"); reflexivity.
  - rewrite (process_message_media_document None s Hm). reflexivity.
Qed.

(** A message yields at most one [file_data]. *)
Lemma process_message_at_most_one (s : State) (files : list FileData) (s' : State) :
  run_message s = (inr files, s') -> (List.length files <= 1)%nat.
Proof.
  rewrite process_message_cases.
  destruct (media message) as [|[d|]| |items];
    try (intro H; injection H as <- _; simpl; lia); try discriminate.
  destruct (has_name d && extension_allowed exts d)%bool;
    [|intro H; injection H as <- _; simpl; lia].
  destruct (true_div_mib (size d)) as [e|f]; [discriminate|].
  destruct (Qle_bool f (inject_Z limit));
    [|intro H; injection H as <- _; simpl; lia].
  unfold accepted. destruct (String.eqb mode "download");
    intro H; injection H as <- _; simpl; lia.
Qed.

End ProcessMessageFacts.

Lemma process_docs_cons message channel exts limit dir mode
      (doc : Media) (rest : list Media) (acc : list FileData) (s : State) :
  process_docs message channel exts limit dir mode (doc :: rest) acc s
  = match process_doc message channel exts limit dir mode doc s with
    | (inl e, s1) => (inl e, s1)
    | (inr None, s1) =>
        process_docs message channel exts limit dir mode rest acc s1
    | (inr (Some file_data), s1) =>
        process_docs message channel exts limit dir mode rest
          (acc ++ [file_data]) s1
    end.
Proof.
  cbn [process_docs]. unfold bind.
  destruct (process_doc message channel exts limit dir mode doc s)
    as [[e|[fd|]] s1]; reflexivity.
Qed.

(** ** List mode leaves the file system alone *)

Section ListMode.

Variable message : Message.
Variable channel : Channel.
Variable exts : list string.
Variable limit : Z.
Variable dir : string.

Lemma process_doc_list_mode (doc : Media) (s : State) :
  let r := process_doc message channel exts limit dir "list" doc s in
  snd r = s
  /\ match fst r with
     | inr (Some file_data) => unprobed file_data
     | _ => True
     end.
Proof.
  destruct doc as [|[d|]| |items]; simpl; try (split; [reflexivity | exact I]).
  rewrite process_doc_document.
  destruct (has_name d && extension_allowed exts d)%bool;
    [|split; [reflexivity | exact I]].
  destruct (true_div_mib (size d)) as [e|f]; [split; [reflexivity | exact I]|].
  destruct (Qle_bool f (inject_Z limit)); [|split; [reflexivity | exact I]].
  unfold accepted. simpl. split; [reflexivity | split; reflexivity].
Qed.

Lemma process_docs_list_mode (docs : list Media) :
  forall (acc : list FileData) (s : State),
    Forall unprobed acc ->
    let r := process_docs message channel exts limit dir "list" docs acc s in
    snd r = s
    /\ match fst r with
       | inr files => Forall unprobed files
       | inl _ => True
       end.
Proof.
  induction docs as [|doc rest IH]; intros acc s Hacc.
  - simpl. split; [reflexivity | assumption].
  - cbv zeta. rewrite process_docs_cons.
    destruct (process_doc_list_mode doc s) as [Hs Hr]. cbv zeta in Hs, Hr.
    destruct (process_doc message channel exts limit dir "list" doc s)
      as [[e|[fd|]] s1]; simpl in Hs, Hr; subst s1.
    + simpl. split; [reflexivity | exact I].
    + apply IH. apply Forall_app. split; [assumption|].
      constructor; [assumption | constructor].
    + now apply IH.
Qed.

(** C8. In list mode [process_message] leaves the whole state as it found
    it (so [os.path.exists] is never called and the file system is
    untouched), and every [file_data] it returns has [file_path] unset
    and [file_exists] false. *)
Theorem list_mode_never_probes (s : State) :
  let r := process_message message channel exts limit dir "list" s in
  snd r = s
  /\ match fst r with
     | inr files => Forall unprobed files
     | inl _ => True
     end.
Proof.
  unfold process_message.
  destruct (media_falsy (media message)
            || negb (is_MessageMediaDocument (media message)))%bool.
  - simpl. split; [reflexivity | constructor].
  - apply process_docs_list_mode. constructor.
Qed.

End ListMode.

(** ** Several documents in one message *)

(** C3 at the message whose media is a list of a [.csv] and an [.exe]
    document: the guard of line 146 answers with the empty list, although
    the loop of line 156, run on the same two documents, keeps the [.csv]
    one and only it. *)
Theorem two_documents_yield_nothing (channel : Channel) (dir m : string) (s : State) :
  process_message Samples.two_documents channel DEFAULT_ALLOWED_EXTENSIONS
    DEFAULT_SIZE_LIMIT_MB dir m s = (inr [], s)
  /\ process_docs Samples.two_documents channel DEFAULT_ALLOWED_EXTENSIONS
       DEFAULT_SIZE_LIMIT_MB dir "list"
       (media_list (media Samples.two_documents)) [] s
     = (inr [ {| file_name := "report.csv"; file_path := None;
                 post_url := get_post_url channel Samples.two_documents;
                 file_exists := false; fsize_mb := 2048 # (2 ^ 20) |} ], s).
Proof.
  split; reflexivity.
Qed.

(** The guard answers so for every list. *)
Lemma process_message_media_list message channel exts limit dir m
      (items : list Media) (s : State) :
  media message = MediaList items ->
  process_message message channel exts limit dir m s = (inr [], s).
Proof.
  intro H. apply process_message_other_media. now rewrite H.
Qed.

(** The loop evaluates each document on its own: what the documents leave
    is appended to what was there, whatever was there. *)
Lemma process_docs_app message channel exts limit dir m
      (docs : list Media) :
  forall (acc : list FileData) (s : State),
    process_docs message channel exts limit dir m docs acc s
    = match process_docs message channel exts limit dir m docs [] s with
      | (inr files, s') => (inr (acc ++ files), s')
      | (inl e, s') => (inl e, s')
      end.
Proof.
  induction docs as [|doc rest IH]; intros acc s.
  - simpl. unfold ret. now rewrite app_nil_r.
  - rewrite !process_docs_cons.
    destruct (process_doc message channel exts limit dir m doc s)
      as [[e|[fd|]] s1]; [reflexivity| |apply IH].
    rewrite (IH (acc ++ [fd]) s1), (IH ([] ++ [fd]) s1).
    destruct (process_docs message channel exts limit dir m rest [] s1)
      as [[e|files] s2]; [reflexivity|].
    simpl. now rewrite <- app_assoc.
Qed.

(** ** One pass of the loop of [export_documents] *)

Section PassFacts.

Variable env : Env.
Variable a : Args.
Variable channel : Channel.

Let exts := effective_extensions a.
Let limit := maxsize_mb a.
Let dir := effective_download_dir env a.

Lemma process_one_unfold (m : Message) (s : State) :
  process_one env a channel m s
  = match process_message m channel exts limit dir (mode a)
            (snd (incr_processed s)) with
    | (inl e, s1) => (inl e, s1)
    | (inr files, s1) =>
        match handle_files env a m files s1 with
        | (inl e, s2) => (inl e, s2)
        | (inr _, s2) => emit EvSleep s2
        end
    end.
Proof.
  unfold process_one, bind, exts, limit, dir. simpl.
  destruct (process_message m channel _ _ _ _ _) as [[e|files] s1];
    [reflexivity|].
  destruct (handle_files env a m files s1) as [[e|u] s2]; reflexivity.
Qed.

(** The passes that reach no admissible attachment. *)
Lemma process_one_no_entry (m : Message) (s : State) :
  entries_of exts limit channel m = [] ->
  let r := process_one env a channel m s in
  processed (snd r) = processed s + 1
  /\ channel_data (snd r) = channel_data s
  /\ files_downloaded (snd r) = files_downloaded s
  /\ files_existed (snd r) = files_existed s
  /\ fs (snd r) = fs s
  /\ (trace (snd r) = trace s \/ trace (snd r) = trace s ++ [EvSleep]).
Proof.
  unfold entries_of, attachments, admissible, size_within.
  rewrite process_one_unfold, process_message_cases.
  destruct (media m) as [|[d|]| |items]; simpl;
    try (intros _; repeat split; auto; fail).
  destruct (has_name d && extension_allowed exts d)%bool; simpl;
    [|intros _; repeat split; auto].
  destruct (true_div_mib (size d)) as [e|f]; simpl;
    [intros _; repeat split; auto|].
  destruct (Qle_bool f (inject_Z limit)); simpl;
    [discriminate | intros _; repeat split; auto].
Qed.

(** The pass over a message whose document is admissible, in full. *)
Lemma process_one_admissible (m : Message) (d : Document) (s : State) :
  media m = MessageMediaDocument (Some d) ->
  admissible exts limit d = true ->
  let entry := entry_for channel m d in
  let path := PyStr.path_join dir (sanitize_filename m (attachment_name d)) in
  process_one env a channel m s
  = if String.eqb (mode a) "download" then
      if fs s path then
        (inr tt,
         {| fs := fs s; trace := trace s ++ [EvExists path; EvSleep];
            processed := processed s + 1;
            files_downloaded := files_downloaded s;
            files_existed := files_existed s + 1;
            channel_data := channel_data s ++ [entry] |})
      else
        match download_media env (media m) (Some path) (fs s) with
        | inr fs' =>
            (inr tt,
             {| fs := fs';
                trace := trace s ++ [EvExists path;
                                     EvDownload (media m) (Some path);
                                     EvSleep];
                processed := processed s + 1;
                files_downloaded := files_downloaded s + 1;
                files_existed := files_existed s;
                channel_data := channel_data s ++ [entry] |})
        | inl e =>
            (inl e,
             {| fs := fs s;
                trace := trace s ++ [EvExists path;
                                     EvDownload (media m) (Some path)];
                processed := processed s + 1;
                files_downloaded := files_downloaded s;
                files_existed := files_existed s;
                channel_data := channel_data s ++ [entry] |})
        end
    else
      (inr tt,
       {| fs := fs s; trace := trace s ++ [EvSleep];
          processed := processed s + 1;
          files_downloaded := files_downloaded s;
          files_existed := files_existed s;
          channel_data := channel_data s ++ [entry] |}).
Proof.
  intros Hm Hadm. cbv zeta.
  rewrite process_one_unfold, process_message_cases, Hm.
  unfold admissible, size_within in Hadm.
  destruct (has_name d && extension_allowed exts d)%bool; [|discriminate].
  destruct (true_div_mib (size d)) as [e|f]; [discriminate|].
  simpl in Hadm. rewrite Hadm.
  unfold accepted, handle_files, handle_file, bind, entry_for, message_data.
  destruct (String.eqb (mode a) "download") eqn:Hmode; simpl.
  - destruct (fs s (PyStr.path_join dir
                     (sanitize_filename m (attachment_name d)))) eqn:Hfs;
      simpl.
    + unfold emit, modify. simpl. now rewrite <- app_assoc.
    + unfold do_download, bind. simpl. rewrite Hm.
      destruct (download_media env (MessageMediaDocument (Some d)) _ (fs s))
        as [e|fs']; unfold emit, modify; simpl; now rewrite <- ?app_assoc.
  - reflexivity.
Qed.

Lemma entries_of_cases (m : Message) :
  entries_of exts limit channel m = []
  \/ exists d, media m = MessageMediaDocument (Some d)
               /\ admissible exts limit d = true
               /\ entries_of exts limit channel m = [entry_for channel m d].
Proof.
  unfold entries_of, attachments.
  destruct (media m) as [|[d|]| |items]; simpl; try (now left).
  destruct (admissible exts limit d) eqn:E; [right | now left].
  exists d. repeat split; assumption || reflexivity.
Qed.

(** What any pass does to the locals and to the trace, however it ends. *)
Lemma process_one_effect (m : Message) (s : State) :
  let r := process_one env a channel m s in
  processed (snd r) = processed s + 1
  /\ channel_data (snd r)
     = channel_data s ++ entries_of exts limit channel m
  /\ (exists evs, trace (snd r) = trace s ++ evs /\ quiet evs)
  /\ (String.eqb (mode a) "download" = true -> fst r = inr tt ->
      files_downloaded (snd r) + files_existed (snd r)
      = files_downloaded s + files_existed s
        + Z.of_nat (List.length (entries_of exts limit channel m)))
  /\ (String.eqb (mode a) "download" = false ->
      files_downloaded (snd r) = files_downloaded s
      /\ files_existed (snd r) = files_existed s
      /\ fs (snd r) = fs s).
Proof.
  destruct (entries_of_cases m) as [E | [d [Hm [Hadm E]]]]; rewrite E.
  - destruct (process_one_no_entry m s E) as (Hp & Hc & Hd & He & Hf & Ht).
    cbv zeta. rewrite Hp, Hc, Hd, He, Hf, app_nil_r.
    repeat split; try reflexivity.
    + destruct Ht as [Ht | Ht]; rewrite Ht.
      * exists []. now rewrite app_nil_r.
      * now exists [EvSleep].
    + intros _ _. simpl. lia.
  - cbv zeta. rewrite (process_one_admissible m d s Hm Hadm).
    destruct (String.eqb (mode a) "download").
    + destruct (fs s _).
      * simpl. repeat split; try reflexivity; try discriminate.
        -- eexists. split; reflexivity.
        -- intros _ _. lia.
      * destruct (download_media env (media m) _ (fs s)) as [e|fs'];
          simpl; repeat split; try reflexivity; try discriminate;
          try (eexists; split; reflexivity).
        intros _ _. lia.
    + simpl. repeat split; try reflexivity; try discriminate.
      eexists. split; reflexivity.
Qed.

End PassFacts.

(** ** Download or skip *)

(** C7. In download mode, a pass over a message with an admissible document
    probes the destination path once. If the file is there, nothing is
    transferred, [files_existed] grows by one and [files_downloaded] is
    unchanged. If it is not, the transfer is requested for that path and,
    when it returns, [files_downloaded] grows by one and [files_existed] is
    unchanged. *)
Theorem existing_file_is_not_transferred
        (env : Env) (a : Args) (channel : Channel) (m : Message)
        (d : Document) (s : State) :
  mode a = "download"%string ->
  media m = MessageMediaDocument (Some d) ->
  admissible (effective_extensions a) (maxsize_mb a) d = true ->
  let path := PyStr.path_join (effective_download_dir env a)
                (sanitize_filename m (attachment_name d)) in
  let r := process_one env a channel m s in
  (fs s path = true ->
   fst r = inr tt
   /\ trace (snd r) = trace s ++ [EvExists path; EvSleep]
   /\ files_existed (snd r) = files_existed s + 1
   /\ files_downloaded (snd r) = files_downloaded s)
  /\ (fs s path = false ->
      (exists rest,
          trace (snd r)
          = trace s ++ [EvExists path; EvDownload (media m) (Some path)] ++ rest)
      /\ forall fs',
          download_media env (media m) (Some path) (fs s) = inr fs' ->
          fst r = inr tt
          /\ files_downloaded (snd r) = files_downloaded s + 1
          /\ files_existed (snd r) = files_existed s).
Proof.
  intros Hmode Hm Hadm. cbv zeta.
  rewrite (process_one_admissible env a channel m d s Hm Hadm), Hmode.
  simpl String.eqb. cbv iota.
  split; intro Hfs; rewrite Hfs.
  - repeat split; reflexivity.
  - destruct (download_media env (media m) _ (fs s)) as [e|fs1]; simpl; split.
    + now exists [].
    + intros fs' H. discriminate H.
    + now exists [EvSleep].
    + intros fs' _. repeat split; reflexivity.
Qed.

(** The sample document, already in [/data]: probed, counted as existing,
    not transferred. *)
Lemma existing_file_is_not_transferred_witness :
  let r := process_one (Samples.client []) (Samples.args 5 "download")
             Samples.news (Samples.csv_message 1) (start Samples.csv_present) in
  fst r = inr tt
  /\ trace (snd r) = [EvExists Samples.csv_path; EvSleep]
  /\ files_existed (snd r) = 1
  /\ files_downloaded (snd r) = 0.
Proof.
  exact (proj1 (existing_file_is_not_transferred
                  (Samples.client []) (Samples.args 5 "download") Samples.news
                  (Samples.csv_message 1) Samples.csv_doc
                  (start Samples.csv_present) eq_refl eq_refl eq_refl)
               eq_refl).
Defined.

(** ** The loop *)

Lemma quiet_app (xs ys : list Event) : quiet xs -> quiet ys -> quiet (xs ++ ys).
Proof.
  unfold quiet. intros Hx Hy. rewrite forallb_app, Hx, Hy. reflexivity.
Qed.

Section LoopFacts.

Variable env : Env.
Variable a : Args.
Variable channel : Channel.
Variable ending : option exn.

Let exts := effective_extensions a.
Let limit := maxsize_mb a.
Let entries := entries_of exts limit channel.

Lemma iterate_cons (m : Message) (rest : list Message) (s : State) :
  iterate env a channel (m :: rest) ending s
  = match process_one env a channel m s with
    | (inl e, s1) => (inl e, s1)
    | (inr _, s1) =>
        if max_limit a <=? processed s1 then (inr tt, s1)
        else iterate env a channel rest ending s1
    end.
Proof.
  cbn [iterate]. unfold bind.
  destruct (process_one env a channel m s) as [[e|u] s1]; reflexivity.
Qed.


(** However the loop ends, [processed] counts the passes started, the
    manifest holds the rows of the admissible attachments of exactly
    those messages, in order, and nothing was written. *)
Lemma iterate_invariant (messages : list Message) :
  forall s : State,
    let r := iterate env a channel messages ending s in
    exists k : nat,
      (k <= List.length messages)%nat
      /\ processed (snd r) = processed s + Z.of_nat k
      /\ channel_data (snd r)
         = channel_data s ++ flat_map entries (firstn k messages)
      /\ exists evs, trace (snd r) = trace s ++ evs /\ quiet evs.
Proof.
  induction messages as [|m rest IH]; intro s; cbv zeta.
  - exists 0%nat. simpl.
    assert (Hs : snd (match ending with
                      | Some e => raise e
                      | None => @ret unit tt
                      end s) = s) by (destruct ending; reflexivity).
    rewrite Hs, app_nil_r.
    repeat split; [lia | lia | exists []; now rewrite app_nil_r].
  - rewrite iterate_cons.
    destruct (process_one_effect env a channel m s)
      as (Hp & Hc & [evs [Ht Hq]] & _). cbv zeta in Hp, Hc, Ht.
    destruct (process_one env a channel m s) as [[e|u] s1];
      simpl in Hp, Hc, Ht.
    + exists 1%nat. simpl. rewrite app_nil_r.
      repeat split; [lia | assumption | assumption | now exists evs].
    + destruct (max_limit a <=? processed s1).
      * exists 1%nat. simpl. rewrite app_nil_r.
        repeat split; [lia | assumption | assumption | now exists evs].
      * destruct (IH s1) as [k (Hk & Hp' & Hc' & [evs' [Ht' Hq']])].
        cbv zeta in Hp', Hc', Ht'.
        exists (S k). repeat split.
        -- simpl. lia.
        -- rewrite Hp', Hp. lia.
        -- rewrite Hc', Hc. simpl. now rewrite app_assoc.
        -- exists (evs ++ evs'). rewrite Ht', Ht, app_assoc.
           split; [reflexivity | now apply quiet_app].
Qed.

(** When the loop ends normally it has made as many passes as there were
    messages, or as the bound allows, and never fewer than one when
    there was a message. *)
Lemma iterate_processed (messages : list Message) :
  forall s s' : State,
    iterate env a channel messages ending s = (inr tt, s') ->
    processed s'
    = processed s
      + Z.min (Z.of_nat (List.length messages))
              (Z.max (max_limit a - processed s) 1).
Proof.
  induction messages as [|m rest IH]; intros s s'.
  - simpl. destruct ending; [discriminate|].
    unfold ret. intro H. injection H as <-. lia.
  - rewrite iterate_cons.
    pose proof (process_one_effect env a channel m s) as (Hp & _).
    cbv zeta in Hp.
    destruct (process_one env a channel m s) as [[e|u] s1]; [discriminate|].
    simpl in Hp.
    destruct (max_limit a <=? processed s1) eqn:Hle.
    + intro H. injection H as <-. apply Z.leb_le in Hle.
      cbn [List.length]. lia.
    + intro H. apply Z.leb_gt in Hle.
      rewrite (IH s1 s' H). cbn [List.length]. lia.
Qed.

(** In download mode each row appended by a loop that ends normally is
    counted once, as downloaded or as existing. *)
Lemma iterate_counts_download (messages : list Message) :
  forall s s' : State,
    String.eqb (mode a) "download" = true ->
    iterate env a channel messages ending s = (inr tt, s') ->
    files_downloaded s' + files_existed s'
      - Z.of_nat (List.length (channel_data s'))
    = files_downloaded s + files_existed s
      - Z.of_nat (List.length (channel_data s)).
Proof.
  induction messages as [|m rest IH]; intros s s' Hmode.
  - simpl. destruct ending; [discriminate|].
    unfold ret. intro H. now injection H as <-.
  - rewrite iterate_cons.
    pose proof (process_one_effect env a channel m s) as (_ & Hc & _ & Hd & _).
    cbv zeta in Hc, Hd.
    destruct (process_one env a channel m s) as [[e|u] s1]; [discriminate|].
    cbn [fst snd] in Hc, Hd. specialize (Hd Hmode).
    assert (Hu : @inr exn unit u = inr tt) by (destruct u; reflexivity).
    specialize (Hd Hu).
    assert (Hstep : files_downloaded s1 + files_existed s1
                      - Z.of_nat (List.length (channel_data s1))
                    = files_downloaded s + files_existed s
                      - Z.of_nat (List.length (channel_data s))).
    { rewrite Hc, length_app, Nat2Z.inj_add. lia. }
    destruct (max_limit a <=? processed s1).
    + intro H. injection H as <-. exact Hstep.
    + intro H. rewrite (IH s1 s' Hmode H). exact Hstep.
Qed.

(** Outside download mode the loop leaves both counters and the file
    system alone, however it ends. *)
Lemma iterate_counts_other (messages : list Message) :
  forall s : State,
    String.eqb (mode a) "download" = false ->
    let r := iterate env a channel messages ending s in
    files_downloaded (snd r) = files_downloaded s
    /\ files_existed (snd r) = files_existed s
    /\ fs (snd r) = fs s.
Proof.
  induction messages as [|m rest IH]; intros s Hmode; cbv zeta.
  - simpl. destruct ending; repeat split; reflexivity.
  - rewrite iterate_cons.
    pose proof (process_one_effect env a channel m s) as (_ & _ & _ & _ & Ho).
    cbv zeta in Ho. specialize (Ho Hmode).
    destruct (process_one env a channel m s) as [[e|u] s1]; simpl in Ho;
      [exact Ho|].
    destruct (max_limit a <=? processed s1); [exact Ho|].
    destruct (IH s1 Hmode) as (H1 & H2 & H3). cbv zeta in H1, H2, H3.
    destruct Ho as (Ho1 & Ho2 & Ho3).
    rewrite H1, H2, H3. repeat split; assumption.
Qed.

End LoopFacts.

(** ** The run *)

Section RunFacts.

Variable env : Env.
Variable a : Args.

Let exts := effective_extensions a.
Let limit := maxsize_mb a.

Lemma export_try_unfold (fs0 : FS) :
  export_try env a (start fs0)
  = match get_entity env (channel_name a) with
    | inl e => (inl e, start fs0)
    | inr channel =>
        let src := iter_messages env channel (max_limit a) in
        match iterate env a channel (fst src) (snd src) (loop_start fs0) with
        | (inl e, s) => (inl e, s)
        | (inr _, s) => write_output env a channel s
        end
    end.
Proof.
  unfold export_try, bind, lift, loop_start.
  destruct (get_entity env (channel_name a)) as [e|channel]; [reflexivity|].
  simpl.
  destruct (iterate env a channel _ _ _) as [[e|u] s]; reflexivity.
Qed.

(** Writing changes no local, creates no file but the manifest, removes
    none, and adds at most the call to the writer, carrying the manifest
    as it stands. *)
Lemma write_output_effect (channel : Channel) (s : State) :
  let r := write_output env a channel s in
  ((forall p, Some p <> output_file a -> fs (snd r) p = fs s p)
   /\ (forall p, fs s p = true -> fs (snd r) p = true))
  /\ processed (snd r) = processed s
  /\ files_downloaded (snd r) = files_downloaded s
  /\ files_existed (snd r) = files_existed s
  /\ channel_data (snd r) = channel_data s
  /\ match fst r with
     | inl _ => trace (snd r) = trace s
     | inr _ =>
         if output a then
           exists file,
             output_file a = Some file
             /\ trace (snd r)
                = trace s ++ [EvWrite file (display_name channel) (channel_data s)]
         else trace (snd r) = trace s
     end.
Proof.
  unfold write_output.
  destruct (output a); [|simpl; repeat split; reflexivity || auto].
  destruct (output_file a) as [file|]; [|simpl; repeat split; reflexivity || auto].
  destruct (open_write env file); [simpl; repeat split; reflexivity || auto|].
  unfold bind, create_file, modify. cbn [fst snd channel_data].
  assert (Hkeep : forall p, Some p <> Some file ->
                            (String.eqb p file || fs s p)%bool = fs s p).
  { intros p Hp. destruct (String.eqb_spec p file) as [->|_];
      [now contradiction Hp | reflexivity]. }
  assert (Hmono : forall p, fs s p = true ->
                            (String.eqb p file || fs s p)%bool = true).
  { intros p ->. apply orb_true_r. }
  destruct (json_dump env file (display_name channel) (channel_data s));
    simpl; repeat split; try reflexivity; try assumption.
  now exists file.
Qed.

(** The locals and the trace when the [try] block is left, whichever way:
    the loop invariant, carried through the writer and the handler. *)
Lemma run_invariant (fs0 : FS) (channel : Channel) :
  get_entity env (channel_name a) = inr channel ->
  let r := export_documents env a fs0 in
  let messages := fst (iter_messages env channel (max_limit a)) in
  exists k : nat,
    (k <= List.length messages)%nat
    /\ processed (snd r) = Z.of_nat k
    /\ channel_data (snd r)
       = flat_map (entries_of exts limit channel) (firstn k messages)
    /\ match fst r with
       | Some e => exists t, trace (snd r) = t ++ [EvError e] /\ quiet t
       | None => True
       end.
Proof.
  intro Hch. cbv zeta. unfold export_documents.
  rewrite export_try_unfold, Hch. cbv zeta.
  destruct (iterate_invariant env a channel
              (snd (iter_messages env channel (max_limit a)))
              (fst (iter_messages env channel (max_limit a)))
              (loop_start fs0))
    as [k (Hk & Hp & Hc & [evs [Ht Hq]])].
  cbv zeta in Hp, Hc, Ht.
  destruct (iterate env a channel _ _ (loop_start fs0)) as [[e|u] s];
    cbn [fst snd] in Hp, Hc, Ht.
  - exists k. simpl. repeat split; try assumption.
    exists evs. now rewrite Ht.
  - destruct (write_output_effect channel s) as (_ & Hp' & _ & _ & Hc' & Ht').
    cbv zeta in Hp', Hc', Ht'.
    destruct (write_output env a channel s) as [[e|u'] s']; cbn [fst snd] in *.
    + exists k. simpl. rewrite Hp', Hc'. repeat split; try assumption.
      exists evs. now rewrite Ht', Ht.
    + exists k. rewrite Hp', Hc'. repeat split; assumption.
Qed.

End RunFacts.

(** ** The manifest *)

(** The manifest of a run, whichever way the run ends. *)
Lemma manifest_rows (env : Env) (a : Args) (fs0 : FS) :
  let s := snd (export_documents env a fs0) in
  match get_entity env (channel_name a) with
  | inl _ => channel_data s = []
  | inr channel =>
      channel_data s
      = flat_map (entries_of (effective_extensions a) (maxsize_mb a) channel)
          (firstn (Z.to_nat (processed s))
             (fst (iter_messages env channel (max_limit a))))
  end.
Proof.
  cbv zeta.
  destruct (get_entity env (channel_name a)) as [e|channel] eqn:Hch.
  - unfold export_documents. rewrite export_try_unfold, Hch. reflexivity.
  - destruct (run_invariant env a fs0 channel Hch) as [k (_ & Hp & Hc & _)].
    cbv zeta in Hp, Hc. now rewrite Hp, Nat2Z.id.
Qed.

(** Where the media of a message is no list, the documents attached to it
    are those the guard lets through. *)
Lemma documents_of_single (m : Message) :
  (forall items, media m <> MediaList items) -> documents_of m = attachments m.
Proof.
  unfold documents_of, attachments, media_documents.
  destruct (media m) as [|[d|]| |items]; intro H; try reflexivity.
  now contradiction (H items).
Qed.

(** C1 at a run over the message whose media is a list of a [.csv] and an
    [.exe] document: the [.csv] document is attached to the message, has
    a name, an allowed extension and a size within the ceiling, the run
    processes the message and ends normally, and the manifest is empty.
    Everywhere else the claim holds: a pass over a message whose media is
    no list appends, however it ends, exactly the rows of the attached
    documents that pass the three checks. *)
Theorem admissible_document_in_list_gets_no_row :
  (let r := export_documents (Samples.client [Samples.two_documents])
              (Samples.args 5 "list") Samples.empty_fs in
   In Samples.csv_doc (documents_of Samples.two_documents)
   /\ has_name Samples.csv_doc = true
   /\ extension_allowed DEFAULT_ALLOWED_EXTENSIONS Samples.csv_doc = true
   /\ size_within DEFAULT_SIZE_LIMIT_MB Samples.csv_doc = true
   /\ fst r = None
   /\ processed (snd r) = 1
   /\ channel_data (snd r) = [])
  /\ (forall (env : Env) (a : Args) (channel : Channel) (m : Message)
             (s : State),
         (forall items, media m <> MediaList items) ->
         channel_data (snd (process_one env a channel m s))
         = channel_data s
           ++ map (entry_for channel m)
                (filter (fun d =>
                           has_name d
                           && extension_allowed (effective_extensions a) d
                           && size_within (maxsize_mb a) d)%bool
                        (documents_of m))).
Proof.
  split.
  - cbv zeta. split; [left; reflexivity|].
    repeat split; vm_compute; reflexivity.
  - intros env a channel m s Hm.
    rewrite (documents_of_single m Hm).
    pose proof (process_one_effect env a channel m s) as (_ & Hc & _).
    exact Hc.
Qed.

(** The same [.csv] document as the only media of a message: one row. *)
Lemma admissible_document_in_list_gets_no_row_witness :
  channel_data (snd (process_one (Samples.client []) (Samples.args 5 "list")
                       Samples.news (Samples.csv_message 1)
                       (start Samples.empty_fs)))
  = [entry_for Samples.news (Samples.csv_message 1) Samples.csv_doc].
Proof.
  refine (proj2 admissible_document_in_list_gets_no_row
            (Samples.client []) (Samples.args 5 "list") Samples.news
            (Samples.csv_message 1) (start Samples.empty_fs) _).
  intros items H. discriminate H.
Defined.

(** What reaches the writer, when the run gets that far, is the manifest. *)
Lemma written_manifest (env : Env) (a : Args) (fs0 : FS)
      (channel : Channel) (s : State) :
  get_entity env (channel_name a) = inr channel ->
  output a = true ->
  export_documents env a fs0 = (None, s) ->
  exists file t,
    output_file a = Some file
    /\ quiet t
    /\ trace s = t ++ [EvWrite file (display_name channel) (channel_data s)].
Proof.
  intros Hch Hout. unfold export_documents.
  rewrite export_try_unfold, Hch. cbv zeta.
  destruct (iterate_invariant env a channel
              (snd (iter_messages env channel (max_limit a)))
              (fst (iter_messages env channel (max_limit a)))
              (loop_start fs0))
    as [k (_ & _ & _ & [evs [Ht Hq]])].
  cbv zeta in Ht.
  destruct (iterate env a channel _ _ (loop_start fs0)) as [[e|u] s1];
    [discriminate|]. cbn [snd] in Ht.
  destruct (write_output_effect env a channel s1) as (_ & _ & _ & _ & Hc & Hw).
  cbv zeta in Hc, Hw.
  destruct (write_output env a channel s1) as [[e|u'] s2]; [discriminate|].
  cbn [fst snd] in Hc, Hw. rewrite Hout in Hw.
  destruct Hw as [file [Hf Hw]].
  intro H. injection H as <-.
  exists file, evs. rewrite Hw, Ht, Hc. repeat split; assumption || reflexivity.
Qed.

(** ** Failures *)






(** ** The bound on the number of messages *)

(** The number of passes of a run that ends normally, for any bound. *)
Lemma run_processed_count (env : Env) (a : Args) (fs0 : FS)
      (channel : Channel) (s : State) :
  get_entity env (channel_name a) = inr channel ->
  export_documents env a fs0 = (None, s) ->
  processed s
  = Z.min (Z.of_nat (List.length (fst (iter_messages env channel (max_limit a)))))
          (Z.max (max_limit a) 1).
Proof.
  intros Hch. unfold export_documents.
  rewrite export_try_unfold, Hch. cbv zeta.
  destruct (iterate env a channel _ _ (loop_start fs0)) as [[e|u] s1] eqn:Hit;
    [discriminate|].
  destruct u. apply iterate_processed in Hit.
  destruct (write_output_effect env a channel s1) as (_ & Hp & _).
  cbv zeta in Hp.
  destruct (write_output env a channel s1) as [[e|u'] s2]; [discriminate|].
  cbn [snd] in Hp. intro H. injection H as <-.
  rewrite Hp, Hit. simpl. now rewrite Z.sub_0_r.
Qed.

(** C4, as the specification states it, fails. With a bound of zero the
    first of three yielded messages is processed before the bound is looked
    at, where [min(3, 0)] is [0]; with a negative bound and nothing yielded,
    nothing is processed, where [min(0, -1)] is [-1]; and a message that
    fails ends the run before the bound of two is reached. *)
Lemma bound_zero_or_failure_breaks_min :
  (let r := export_documents
              (Samples.client [Samples.csv_message 1; Samples.csv_message 2;
                               Samples.csv_message 3])
              (Samples.args 0 "list") Samples.empty_fs in
   fst r = None /\ processed (snd r) = 1 /\ Z.min 3 0 = 0
   /\ List.length (channel_data (snd r)) = 1%nat)
  /\ (let r := export_documents (Samples.client []) (Samples.args (-1) "list")
                 Samples.empty_fs in
      fst r = None /\ processed (snd r) = 0 /\ Z.min 0 (-1) = -1)
  /\ (let r := export_documents
                 (Samples.client [Samples.hollow_message; Samples.csv_message 2;
                                  Samples.csv_message 3])
                 (Samples.args 2 "list") Samples.empty_fs in
      fst r = Some AttributeError /\ processed (snd r) = 1 /\ Z.min 3 2 = 2).
Proof.
  vm_compute. repeat split; reflexivity.
Qed.

(** C4, amended. A run with a bound of at least one that ends normally has
    processed exactly [min(N, M)] of the [N] messages the source yields,
    and its manifest holds the rows of those messages only. *)
Theorem processes_min_of_yielded_and_bound
        (env : Env) (a : Args) (fs0 : FS) (channel : Channel) (s : State) :
  1 <= max_limit a ->
  get_entity env (channel_name a) = inr channel ->
  export_documents env a fs0 = (None, s) ->
  let messages := fst (iter_messages env channel (max_limit a)) in
  let n := Z.min (Z.of_nat (List.length messages)) (max_limit a) in
  processed s = n
  /\ channel_data s
     = flat_map (entries_of (effective_extensions a) (maxsize_mb a) channel)
         (firstn (Z.to_nat n) messages).
Proof.
  intros Hmax Hch Hrun. cbv zeta.
  pose proof (run_processed_count env a fs0 channel s Hch Hrun) as Hp.
  rewrite Z.max_l in Hp by assumption.
  split; [assumption|].
  pose proof (manifest_rows env a fs0) as Hm.
  rewrite Hch, Hrun in Hm. cbn [snd] in Hm. now rewrite <- Hp.
Qed.

(** Three messages yielded, a bound of two: two processed. *)
Lemma processes_min_of_yielded_and_bound_witness :
  let r := export_documents
             (Samples.client [Samples.csv_message 1; Samples.csv_message 2;
                              Samples.csv_message 3])
             (Samples.args 2 "list") Samples.empty_fs in
  processed (snd r) = 2
  /\ channel_data (snd r)
     = [entry_for Samples.news (Samples.csv_message 1) Samples.csv_doc;
        entry_for Samples.news (Samples.csv_message 2) Samples.csv_doc].
Proof.
  refine (processes_min_of_yielded_and_bound
            (Samples.client [Samples.csv_message 1; Samples.csv_message 2;
                             Samples.csv_message 3])
            (Samples.args 2 "list") Samples.empty_fs Samples.news _ _ _ _).
  - simpl. lia.
  - reflexivity.
  - reflexivity.
Defined.

(** ** The run counters *)

(** In download mode a pass leaves at most one more row uncounted, and
    none when it ends normally. *)
Lemma process_one_uncounted (env : Env) (a : Args) (channel : Channel)
      (m : Message) (s : State) :
  String.eqb (mode a) "download" = true ->
  let r := process_one env a channel m s in
  uncounted s <= uncounted (snd r) <= uncounted s + 1
  /\ (fst r = inr tt -> uncounted (snd r) = uncounted s).
Proof.
  intro Hmode. cbv zeta. unfold uncounted.
  destruct (entries_of_cases a channel m) as [E | [d [Hm [Hadm _]]]].
  - destruct (process_one_no_entry env a channel m s E)
      as (_ & Hc & Hd & He & _).
    cbv zeta in Hc, Hd, He. rewrite Hc, Hd, He. split; [lia | reflexivity].
  - rewrite (process_one_admissible env a channel m d s Hm Hadm), Hmode.
    destruct (fs s _).
    + cbn [fst snd channel_data files_downloaded files_existed].
      rewrite length_app, Nat2Z.inj_add. simpl. split; [lia | intros _; lia].
    + destruct (download_media env (media m) _ (fs s));
        cbn [fst snd channel_data files_downloaded files_existed];
        rewrite length_app, Nat2Z.inj_add; simpl;
        (split; [lia | try discriminate; intros _; lia]).
Qed.

(** So does the loop, however it ends. *)
Lemma iterate_uncounted (env : Env) (a : Args) (channel : Channel)
      (ending : option exn) (messages : list Message) :
  String.eqb (mode a) "download" = true ->
  forall s : State,
    uncounted s
    <= uncounted (snd (iterate env a channel messages ending s))
    <= uncounted s + 1.
Proof.
  intro Hmode. induction messages as [|m rest IH]; intro s.
  - simpl. destruct ending; simpl; lia.
  - rewrite iterate_cons.
    destruct (process_one_uncounted env a channel m s Hmode) as [Hb Hn].
    cbv zeta in Hb, Hn.
    destruct (process_one env a channel m s) as [[e|[]] s1];
      cbn [fst snd] in Hb, Hn; [exact Hb|].
    specialize (Hn eq_refl).
    destruct (max_limit a <=? processed s1); cbn [snd]; [lia|].
    specialize (IH s1). lia.
Qed.

(** C10, as the specification states it, fails: in download mode a
    transfer that raises leaves the row of its attachment in the manifest
    with neither counter incremented. One message, one row, both counters
    zero. *)
Lemma failed_transfer_row_is_uncounted :
  let r := export_documents (Cases.failing_client [Samples.csv_message 1])
             (Samples.args 5 "download") Samples.empty_fs in
  mode (Samples.args 5 "download") = "download"%string
  /\ fst r = Some (TransportError "flood wait")
  /\ List.length (channel_data (snd r)) = 1%nat
  /\ files_downloaded (snd r) = 0
  /\ files_existed (snd r) = 0.
Proof.
  vm_compute. repeat split; reflexivity.
Qed.

(** C10, amended. In download mode, when the loop ends normally every row
    of the manifest has been counted once, as downloaded or as already
    existing, so the two counters add up to the number of rows, after the
    loop and at the end of a run that ends normally; however the run ends,
    the counters add up to the number of rows or to one less, the row of
    a transfer that raised; in list mode both counters are zero at the
    end of the run, however it ends. *)
Theorem counters_add_up_to_manifest (env : Env) (a : Args) (fs0 : FS) :
  (mode a = "download"%string ->
   (forall (channel : Channel) (messages : list Message)
           (ending : option exn) (s : State),
       iterate env a channel messages ending (loop_start fs0) = (inr tt, s) ->
       files_downloaded s + files_existed s
       = Z.of_nat (List.length (channel_data s)))
   /\ (forall s : State,
          export_documents env a fs0 = (None, s) ->
          files_downloaded s + files_existed s
          = Z.of_nat (List.length (channel_data s))))
  /\ (mode a = "list"%string ->
      files_downloaded (snd (export_documents env a fs0)) = 0
      /\ files_existed (snd (export_documents env a fs0)) = 0)
  /\ (mode a = "download"%string ->
      let s := snd (export_documents env a fs0) in
      files_downloaded s + files_existed s
      <= Z.of_nat (List.length (channel_data s))
      <= files_downloaded s + files_existed s + 1).
Proof.
  assert (Hloop : String.eqb (mode a) "download" = true ->
                  forall channel messages ending s,
                    iterate env a channel messages ending (loop_start fs0)
                    = (inr tt, s) ->
                    files_downloaded s + files_existed s
                    = Z.of_nat (List.length (channel_data s))).
  { intros Hmode channel messages ending s H.
    pose proof (iterate_counts_download env a channel ending messages
                  (loop_start fs0) s Hmode H) as Hc.
    simpl in Hc. lia. }
  split; [|split].
  - intro Hmode. rewrite Hmode in Hloop. specialize (Hloop eq_refl).
    split; [exact Hloop|].
    intros s. unfold export_documents. rewrite export_try_unfold.
    destruct (get_entity env (channel_name a)) as [e|channel]; [discriminate|].
    cbv zeta.
    destruct (iterate env a channel _ _ (loop_start fs0)) as [[e|u] s1] eqn:Hit;
      [discriminate|].
    destruct u. apply Hloop in Hit.
    destruct (write_output_effect env a channel s1)
      as (_ & _ & Hd & He & Hc & _).
    cbv zeta in Hd, He, Hc.
    destruct (write_output env a channel s1) as [[e|u'] s2]; [discriminate|].
    cbn [snd] in Hd, He, Hc. intro H. injection H as <-.
    now rewrite Hd, He, Hc.
  - intro Hmode.
    assert (Hm : String.eqb (mode a) "download" = false) by now rewrite Hmode.
    unfold export_documents. rewrite export_try_unfold.
    destruct (get_entity env (channel_name a)) as [e|channel];
      [split; reflexivity|].
    cbv zeta.
    destruct (iterate_counts_other env a channel
                (snd (iter_messages env channel (max_limit a)))
                (fst (iter_messages env channel (max_limit a)))
                (loop_start fs0) Hm) as (Hd & He & _).
    cbv zeta in Hd, He.
    change (files_downloaded (loop_start fs0)) with 0 in Hd.
    change (files_existed (loop_start fs0)) with 0 in He.
    destruct (iterate env a channel _ _ (loop_start fs0)) as [[e|u] s1];
      cbn [snd] in Hd, He; [simpl; split; assumption|].
    destruct (write_output_effect env a channel s1) as (_ & _ & Hd' & He' & _).
    cbv zeta in Hd', He'.
    destruct (write_output env a channel s1) as [[e|u'] s2];
      cbn [snd] in Hd', He'; simpl; rewrite Hd', He'; split; assumption.
  - intro Hmode. cbv zeta.
    assert (Hm : String.eqb (mode a) "download" = true) by now rewrite Hmode.
    assert (Hgoal : 0 <= uncounted (snd (export_documents env a fs0)) <= 1);
      [|unfold uncounted in Hgoal; lia].
    unfold export_documents. rewrite export_try_unfold.
    destruct (get_entity env (channel_name a)) as [e|channel];
      [unfold uncounted; simpl; lia|].
    cbv zeta.
    pose proof (iterate_uncounted env a channel
                  (snd (iter_messages env channel (max_limit a)))
                  (fst (iter_messages env channel (max_limit a)))
                  Hm (loop_start fs0)) as Hb.
    change (uncounted (loop_start fs0)) with 0 in Hb.
    destruct (iterate env a channel _ _ (loop_start fs0)) as [[e|u] s1];
      cbn [snd] in Hb; [exact Hb|].
    destruct (write_output_effect env a channel s1)
      as (_ & _ & Hd' & He' & Hc' & _).
    cbv zeta in Hd', He', Hc'.
    destruct (write_output env a channel s1) as [[e|u'] s2];
      cbn [snd] in Hd', He', Hc'; unfold uncounted in *; simpl;
      rewrite Hd', He', Hc'; exact Hb.
Qed.

(** Two messages of the same day carrying [report.csv], into an empty
    directory: the first is downloaded, the second finds the file there;
    two rows, one of each count. *)
Lemma counters_add_up_to_manifest_witness :
  let r := export_documents
             (Samples.client [Samples.csv_message 1; Samples.csv_message 2])
             (Samples.args 5 "download") Samples.empty_fs in
  fst r = None
  /\ files_downloaded (snd r) = 1
  /\ files_existed (snd r) = 1
  /\ files_downloaded (snd r) + files_existed (snd r)
     = Z.of_nat (List.length (channel_data (snd r))).
Proof.
  cbv zeta.
  split; [vm_compute; reflexivity|].
  split; [vm_compute; reflexivity|].
  split; [vm_compute; reflexivity|].
  refine (proj2 (proj1 (counters_add_up_to_manifest
                          (Samples.client [Samples.csv_message 1;
                                           Samples.csv_message 2])
                          (Samples.args 5 "download") Samples.empty_fs) _)
                _ _).
  - reflexivity.
  - vm_compute. reflexivity.
Defined.

(** * Further properties of the code *)

(** ** Names and links *)

Lemma append_cancel_l (p a b : string) : (p ++ a = p ++ b)%string -> a = b.
Proof.
  induction p as [|c p IH]; simpl; intro H; [assumption|].
  injection H as H. now apply IH.
Qed.

Lemma of_Z_inj (x y : Z) : PyStr.of_Z x = PyStr.of_Z y -> x = y.
Proof.
  unfold PyStr.of_Z. intro H.
  assert (Hnn : forall z, Z.to_int z <> Decimal.Pos Decimal.Nil
                          /\ Z.to_int z <> Decimal.Neg Decimal.Nil).
  { intros [|p|p]; simpl; split; try discriminate;
      intro E; injection E as E; now apply DecimalPos.Unsigned.to_uint_nonnil in E. }
  apply (f_equal NilZero.int_of_string) in H.
  rewrite !NilZero.isi in H by apply Hnn.
  injection H as H. now apply DecimalZ.to_int_inj.
Qed.

(** The link to a post tells the posts of a channel apart, and, for a
    channel without a user name, depends on the identifier of the channel
    through its magnitude only. *)
Theorem post_url_identifies_message :
  (forall (channel : Channel) (m1 m2 : Message),
      get_post_url channel m1 = get_post_url channel m2 ->
      msg_id m1 = msg_id m2)
  /\ (forall (c1 c2 : Channel) (m : Message),
         username c1 = None -> username c2 = None ->
         Z.abs (channel_id c1) = Z.abs (channel_id c2) ->
         get_post_url c1 m = get_post_url c2 m).
Proof.
  split.
  - intros channel m1 m2. unfold get_post_url.
    destruct (username channel) as [[|c u]|]; intro H;
      do 3 apply append_cancel_l in H; now apply of_Z_inj.
  - intros c1 c2 m H1 H2 Habs. unfold get_post_url.
    now rewrite H1, H2, Habs.
Qed.

Lemma post_url_identifies_message_witness :
  get_post_url (Cases.private_channel (-1001234)) (Samples.csv_message 7)
  = get_post_url (Cases.private_channel 1001234) (Samples.csv_message 7)
  /\ get_post_url (Cases.private_channel 1001234) (Samples.csv_message 7)
     = "https://t.me/c/1001234/7"%string.
Proof.
  split; [|reflexivity].
  apply (proj2 post_url_identifies_message); reflexivity.
Defined.

(** ** Dates in names *)

Lemma all_digits_app (a b : string) :
  all_digits (a ++ b) = (all_digits a && all_digits b)%bool.
Proof.
  induction a as [|c a IH]; simpl; [reflexivity|].
  now rewrite IH, andb_assoc.
Qed.

Lemma all_digits_of_uint (d : Decimal.uint) :
  all_digits (NilEmpty.string_of_uint d) = true.
Proof.
  induction d; simpl; try reflexivity; assumption.
Qed.

Lemma all_digits_of_nat (n : nat) :
  all_digits (NilZero.string_of_uint (Nat.to_uint n)) = true.
Proof.
  unfold NilZero.string_of_uint.
  destruct (Nat.to_uint n); try reflexivity; apply all_digits_of_uint.
Qed.

Lemma all_digits_pad2 (n : nat) : all_digits (PyStr.pad2 n) = true.
Proof.
  unfold PyStr.pad2. destruct (Nat.ltb n 10); simpl;
    now rewrite all_digits_of_nat.
Qed.

Lemma all_digits_strftime_Ymd (d : datetime) : all_digits (strftime_Ymd d) = true.
Proof.
  unfold strftime_Ymd.
  now rewrite !all_digits_app, all_digits_of_nat, !all_digits_pad2.
Qed.

Lemma of_nat_nonempty (n : nat) :
  NilZero.string_of_uint (Nat.to_uint n) <> EmptyString.
Proof.
  unfold NilZero.string_of_uint.
  destruct (Nat.to_uint n) eqn:E; simpl; try discriminate.
Qed.

Lemma strftime_Ymd_nonempty (d : datetime) : strftime_Ymd d <> EmptyString.
Proof.
  unfold strftime_Ymd.
  pose proof (of_nat_nonempty (year d)) as H.
  destruct (NilZero.string_of_uint (Nat.to_uint (year d))); [contradiction|].
  discriminate.
Qed.

(** A digit is none of the characters the code treats specially. *)
Lemma digit_is_plain (c : ascii) :
  is_digit c = true ->
  c <> "-"%char /\ c <> "/"%char /\ c <> "@"%char.
Proof.
  intro H. repeat split; intro E; subst c; discriminate H.
Qed.

(** The digits before the first dash are told apart from what follows. *)
Lemma digits_dash_split (a a' n n' : string) :
  all_digits a = true -> all_digits a' = true ->
  (a ++ "-" ++ n = a' ++ "-" ++ n')%string ->
  a = a' /\ n = n'.
Proof.
  revert a'. induction a as [|c a IH]; intros [|c' a'] Ha Ha' H; simpl in *.
  - injection H as H. now split.
  - injection H as Hc _. apply andb_prop in Ha' as [Hd _].
    apply digit_is_plain in Hd as [Hd _]. now symmetry in Hc.
  - injection H as Hc _. apply andb_prop in Ha as [Hd _].
    apply digit_is_plain in Hd as [Hd _]. contradiction.
  - injection H as Hc H.
    apply andb_prop in Ha as [_ Ha]. apply andb_prop in Ha' as [_ Ha'].
    destruct (IH a' Ha Ha' H) as [-> ->]. now subst.
Qed.

Lemma length_append (a b : string) :
  String.length (a ++ b) = (String.length a + String.length b)%nat.
Proof.
  induction a as [|c a IH]; simpl; [reflexivity | now rewrite IH].
Qed.

Lemma append_split_by_length (a a' b b' : string) :
  String.length a = String.length a' ->
  (a ++ b = a' ++ b')%string -> a = a' /\ b = b'.
Proof.
  revert a'. induction a as [|c a IH]; intros [|c' a'] Hl H; simpl in *;
    try discriminate.
  - now split.
  - injection H as -> H. injection Hl as Hl.
    destruct (IH a' Hl H) as [-> ->]. now split.
Qed.

Lemma in_seq_below (n k : nat) : (n < k)%nat -> In n (seq 0 k).
Proof.
  intro H. apply in_seq. lia.
Qed.

Lemma length_pad2 (n : nat) : (n < 100)%nat -> String.length (PyStr.pad2 n) = 2%nat.
Proof.
  intro H.
  assert (Hall : forallb (fun k => Nat.eqb (String.length (PyStr.pad2 k)) 2)
                         (seq 0 100) = true) by (vm_compute; reflexivity).
  rewrite forallb_forall in Hall.
  apply Nat.eqb_eq, Hall, in_seq_below, H.
Qed.

Lemma read_nat_of_nat (n : nat) :
  read_nat (NilZero.string_of_uint (Nat.to_uint n)) = Some n.
Proof.
  unfold read_nat, NilZero.string_of_uint.
  destruct (Nat.to_uint n) eqn:E;
    try (rewrite <- E, NilEmpty.usu; simpl; now rewrite DecimalNat.Unsigned.of_to).
  apply (f_equal Nat.of_uint) in E.
  rewrite DecimalNat.Unsigned.of_to in E. now subst.
Qed.

Lemma read_nat_pad2 (n : nat) : read_nat (PyStr.pad2 n) = Some n.
Proof.
  unfold PyStr.pad2. destruct (Nat.ltb n 10); [|apply read_nat_of_nat].
  pose proof (read_nat_of_nat n) as H. unfold read_nat in *. simpl.
  destruct (NilEmpty.uint_of_string
              (NilZero.string_of_uint (Nat.to_uint n))) as [d|];
    [|discriminate].
  simpl in *. exact H.
Qed.

Lemma strftime_Ymd_inj (d1 d2 : datetime) :
  (month d1 < 100)%nat -> (day d1 < 100)%nat ->
  (month d2 < 100)%nat -> (day d2 < 100)%nat ->
  strftime_Ymd d1 = strftime_Ymd d2 ->
  year d1 = year d2 /\ month d1 = month d2 /\ day d1 = day d2.
Proof.
  intros Hm1 Hd1 Hm2 Hd2. unfold strftime_Ymd. intro H.
  assert (Hlen : String.length (NilZero.string_of_uint (Nat.to_uint (year d1)))
                 = String.length (NilZero.string_of_uint (Nat.to_uint (year d2)))).
  { apply (f_equal String.length) in H.
    rewrite !length_append, !length_pad2 in H by assumption. lia. }
  destruct (append_split_by_length _ _ _ _ Hlen H) as [Hy Hmd].
  assert (Hlen2 : String.length (PyStr.pad2 (month d1))
                  = String.length (PyStr.pad2 (month d2)))
    by now rewrite !length_pad2.
  destruct (append_split_by_length _ _ _ _ Hlen2 Hmd) as [Hmo Hda].
  apply (f_equal read_nat) in Hy, Hmo, Hda.
  rewrite !read_nat_of_nat in Hy. rewrite !read_nat_pad2 in Hmo, Hda.
  injection Hy as Hy. injection Hmo as Hmo. injection Hda as Hda.
  now repeat split.
Qed.

(** [sanitize_filename] gives two attachments the same local name exactly
    when they were posted on the same day under the same file name; the
    time of day and the message take no part. *)
Theorem combined_names_collide_iff (m1 m2 : Message) (n1 n2 : string) :
  (month (date m1) < 100)%nat -> (day (date m1) < 100)%nat ->
  (month (date m2) < 100)%nat -> (day (date m2) < 100)%nat ->
  (sanitize_filename m1 n1 = sanitize_filename m2 n2
   <-> year (date m1) = year (date m2)
       /\ month (date m1) = month (date m2)
       /\ day (date m1) = day (date m2)
       /\ n1 = n2).
Proof.
  intros Hm1 Hd1 Hm2 Hd2. unfold sanitize_filename. split.
  - intro H.
    apply digits_dash_split in H as [Hd Hn];
      try apply all_digits_strftime_Ymd.
    destruct (strftime_Ymd_inj _ _ Hm1 Hd1 Hm2 Hd2 Hd) as (Hy & Hmo & Hda).
    now repeat split.
  - intros (Hy & Hmo & Hda & ->). unfold strftime_Ymd.
    now rewrite Hy, Hmo, Hda.
Qed.

(** Two messages of the same day, hours apart, carrying [report.csv]. *)
Lemma combined_names_collide_iff_witness :
  sanitize_filename (Samples.csv_message 1) "report.csv"
  = sanitize_filename
      {| msg_id := 2;
         date := {| year := 2024; month := 1; day := 5;
                    hour := 23; minute := 59; second := 0 |};
         media := MediaNone |} "report.csv".
Proof.
  apply combined_names_collide_iff; simpl; try lia.
  repeat split; reflexivity.
Defined.

Lemma starts_with_slash_digits (a b : string) :
  all_digits a = true -> a <> EmptyString ->
  PyStr.starts_with_slash (a ++ b) = false.
Proof.
  destruct a as [|c a]; [contradiction|]. simpl. intros H _.
  apply andb_prop in H as [H _].
  apply digit_is_plain in H as (_ & H & _).
  now apply Ascii.eqb_neq.
Qed.

(** The path of a download always begins with the download directory, and
    it ends with the combined name, in which the file name the channel
    sent stands unchanged. *)
Theorem download_path_is_under_directory (dir : string) (m : Message) (n : string) :
  exists sep : string,
    (sep = EmptyString \/ sep = "/"%string)
    /\ PyStr.path_join dir (sanitize_filename m n)
       = (dir ++ sep ++ strftime_Ymd (date m) ++ "-" ++ n)%string.
Proof.
  unfold PyStr.path_join, sanitize_filename.
  rewrite (starts_with_slash_digits _ _ (all_digits_strftime_Ymd (date m))
             (strftime_Ymd_nonempty (date m))).
  destruct dir as [|c dir].
  - exists EmptyString. split; [now left | reflexivity].
  - destruct (PyStr.ends_with_slash (String c dir)).
    + exists EmptyString. split; [now left | reflexivity].
    + exists "/"%string. split; [now right | reflexivity].
Qed.

(** ** White space around names *)

Lemma lstrip_blank (s : string) : blank s = true -> PyStr.lstrip s = EmptyString.
Proof.
  induction s as [|c s IH]; simpl; [reflexivity|].
  intro H. apply andb_prop in H as [Hc Hs]. rewrite Hc. now apply IH.
Qed.

Lemma lstrip_first (s : string) : first_char_is_space (PyStr.lstrip s) = false.
Proof.
  induction s as [|c s IH]; simpl; [reflexivity|].
  destruct (PyStr.is_space c) eqn:E; [assumption | simpl; assumption].
Qed.

Lemma lstrip_empty_blank (s : string) :
  PyStr.lstrip s = EmptyString -> blank s = true.
Proof.
  induction s as [|c s IH]; simpl; [reflexivity|].
  destruct (PyStr.is_space c); [assumption | discriminate].
Qed.

Lemma rstrip_first (s : string) :
  first_char_is_space s = false -> first_char_is_space (PyStr.rstrip s) = false.
Proof.
  destruct s as [|c s]; simpl; [reflexivity|]. intro H.
  destruct (PyStr.rstrip s); [rewrite H|]; simpl; assumption.
Qed.

Lemma rstrip_nonempty (s : string) :
  first_char_is_space s = false -> s <> EmptyString ->
  PyStr.rstrip s <> EmptyString.
Proof.
  destruct s as [|c s]; simpl; [contradiction|]. intros H _.
  destruct (PyStr.rstrip s); [rewrite H|]; discriminate.
Qed.

Lemma rstrip_last (s : string) : last_char_is_space (PyStr.rstrip s) = false.
Proof.
  induction s as [|c s IH]; simpl; [reflexivity|].
  destruct (PyStr.rstrip s) as [|c' r] eqn:E.
  - destruct (PyStr.is_space c) eqn:Hc; simpl; [reflexivity | assumption].
  - exact IH.
Qed.

Lemma lstrip_fixed (s : string) :
  first_char_is_space s = false -> PyStr.lstrip s = s.
Proof.
  destruct s as [|c s]; simpl; [reflexivity|]. now intros ->.
Qed.

Lemma rstrip_fixed (s : string) :
  last_char_is_space s = false -> PyStr.rstrip s = s.
Proof.
  induction s as [|c s IH]; [reflexivity|].
  destruct s as [|c' s'].
  - simpl. now intros ->.
  - intro H. change (last_char_is_space (String c (String c' s')))
      with (last_char_is_space (String c' s')) in H.
    cbn [PyStr.rstrip]. cbn [PyStr.rstrip] in IH. now rewrite (IH H).
Qed.

Lemma strip_idempotent (s : string) : PyStr.strip (PyStr.strip s) = PyStr.strip s.
Proof.
  unfold PyStr.strip at 1.
  rewrite lstrip_fixed by (apply rstrip_first, lstrip_first).
  apply rstrip_fixed, rstrip_last.
Qed.

Lemma strip_empty_iff_blank (s : string) :
  PyStr.strip s = EmptyString <-> blank s = true.
Proof.
  unfold PyStr.strip. split.
  - intro H. apply lstrip_empty_blank.
    destruct (PyStr.lstrip s) as [|c r] eqn:E; [reflexivity|].
    exfalso. apply (rstrip_nonempty (String c r)); try assumption.
    + rewrite <- E. apply lstrip_first.
    + discriminate.
  - intro H. now rewrite (lstrip_blank s H).
Qed.

Lemma first_file_name_skips (pre : list DocumentAttribute) (n : string)
      (rest : list DocumentAttribute) :
  Forall (fun x => x = AttrOther) pre ->
  first_file_name (pre ++ AttrFilename n :: rest) = Some (PyStr.strip n).
Proof.
  induction 1 as [|x pre Hx _ IH]; simpl; [reflexivity|]. now subst x.
Qed.

Lemma first_file_name_stripped (attrs : list DocumentAttribute) (n : string) :
  first_file_name attrs = Some n -> PyStr.strip n = n.
Proof.
  induction attrs as [|[raw|] attrs IH]; simpl; try discriminate.
  - intro H. injection H as <-. apply strip_idempotent.
  - exact IH.
Qed.

(** Only the first attribute that carries a file name is looked at, and a
    name of white space alone counts as no name: such a document is passed
    over, in every mode and without a trace, even when a later attribute
    carries a good name. *)
Theorem blank_first_name_hides_document
        (message : Message) (channel : Channel) (exts : list string)
        (limit : Z) (dir m : string) (d : Document)
        (pre : list DocumentAttribute) (n : string)
        (rest : list DocumentAttribute) (s : State) :
  media message = MessageMediaDocument (Some d) ->
  attributes d = pre ++ AttrFilename n :: rest ->
  Forall (fun x => x = AttrOther) pre ->
  blank n = true ->
  process_message message channel exts limit dir m s = (inr [], s).
Proof.
  intros Hm Ha Hpre Hb.
  rewrite process_message_cases, Hm. unfold has_name.
  rewrite Ha, (first_file_name_skips pre n rest Hpre).
  now rewrite (proj2 (strip_empty_iff_blank n) Hb).
Qed.

Lemma blank_first_name_hides_document_witness :
  process_message
    {| msg_id := 5; date := Cases.day;
       media := MessageMediaDocument (Some Cases.blank_doc) |}
    Samples.news DEFAULT_ALLOWED_EXTENSIONS DEFAULT_SIZE_LIMIT_MB "/data"
    "download" (start Samples.empty_fs)
  = (inr [], start Samples.empty_fs).
Proof.
  apply (blank_first_name_hides_document _ _ _ _ _ _ Cases.blank_doc
           [] "   " [AttrFilename "report.csv"]).
  - reflexivity.
  - reflexivity.
  - constructor.
  - reflexivity.
Defined.

(** Whatever the run did, every row of its manifest passed the filter: the
    file name is not empty, carries no white space at either end, and has
    an allowed extension. *)
Theorem manifest_rows_pass_filter (env : Env) (a : Args) (fs0 : FS) :
  Forall (row_ok (effective_extensions a))
         (channel_data (snd (export_documents env a fs0))).
Proof.
  pose proof (manifest_rows env a fs0) as H. cbv zeta in H.
  destruct (get_entity env (channel_name a)) as [e|channel];
    rewrite H; [constructor|].
  apply Forall_forall. intros row Hin.
  apply in_flat_map in Hin as [m [_ Hin]].
  unfold entries_of in Hin. apply in_map_iff in Hin as [d [<- Hd]].
  apply filter_In in Hd as [_ Hadm].
  unfold admissible in Hadm.
  apply andb_prop in Hadm as [Hadm _]. apply andb_prop in Hadm as [Hn He].
  unfold row_ok, entry_for. cbn [entry_file_name].
  unfold has_name in Hn. unfold extension_allowed in He.
  unfold attachment_name in *.
  destruct (first_file_name (attributes d)) as [[|c n]|] eqn:E;
    try discriminate.
  repeat split; [discriminate | | assumption].
  now apply (first_file_name_stripped (attributes d)).
Qed.

(** ** Extensions *)

Lemma lower_ascii_slash (a : ascii) :
  Ascii.eqb (PyStr.lower_ascii a) "/"%char = Ascii.eqb a "/"%char.
Proof.
  destruct a as [[] [] [] [] [] [] [] []]; vm_compute; reflexivity.
Qed.

Lemma lower_ascii_dot (a : ascii) :
  Ascii.eqb (PyStr.lower_ascii a) "."%char = Ascii.eqb a "."%char.
Proof.
  destruct a as [[] [] [] [] [] [] [] []]; vm_compute; reflexivity.
Qed.

Lemma lower_ascii_idempotent (a : ascii) :
  PyStr.lower_ascii (PyStr.lower_ascii a) = PyStr.lower_ascii a.
Proof.
  destruct a as [[] [] [] [] [] [] [] []]; vm_compute; reflexivity.
Qed.

Lemma lower_idempotent (s : string) : PyStr.lower (PyStr.lower s) = PyStr.lower s.
Proof.
  induction s as [|c s IH]; simpl; [reflexivity|].
  now rewrite lower_ascii_idempotent, IH.
Qed.

Lemma length_lower (s : string) : String.length (PyStr.lower s) = String.length s.
Proof.
  induction s as [|c s IH]; simpl; [reflexivity | now rewrite IH].
Qed.

Lemma rfind_from_lower (c : ascii) (s : string) :
  (forall a, Ascii.eqb (PyStr.lower_ascii a) c = Ascii.eqb a c) ->
  forall i last,
    PyStr.rfind_from c (PyStr.lower s) i last = PyStr.rfind_from c s i last.
Proof.
  intro Hc. induction s as [|a s IH]; intros i last; simpl; [reflexivity|].
  now rewrite Hc, IH.
Qed.

Lemma substring_lower (s : string) :
  forall n k, substring n k (PyStr.lower s) = PyStr.lower (substring n k s).
Proof.
  induction s as [|c s IH]; intros [|n] [|k]; simpl; try reflexivity.
  - now rewrite IH.
  - apply IH.
  - apply IH.
Qed.

Lemma has_non_dot_lower (s : string) :
  PyStr.has_non_dot (PyStr.lower s) = PyStr.has_non_dot s.
Proof.
  induction s as [|c s IH]; simpl; [reflexivity|].
  now rewrite lower_ascii_dot, IH.
Qed.

Lemma splitext_ext_lower (p : string) :
  PyStr.splitext_ext (PyStr.lower p) = PyStr.lower (PyStr.splitext_ext p).
Proof.
  unfold PyStr.splitext_ext, PyStr.rfind, PyStr.slice, PyStr.slice_from.
  rewrite (rfind_from_lower _ p lower_ascii_slash),
    (rfind_from_lower _ p lower_ascii_dot), !substring_lower,
    has_non_dot_lower, length_lower.
  destruct (_ <? _); [|reflexivity].
  destruct (PyStr.has_non_dot _); reflexivity.
Qed.

(** On ASCII names and lists the extension filter does not see letter
    case: two file names that differ in case only get the same answer from
    every allowed list, and two allowed lists that differ in case only
    give the same answers. *)
Theorem extension_filter_ignores_case :
  (forall (n1 n2 : string) (exts : list string),
      ascii_only n1 = true -> ascii_only n2 = true ->
      PyStr.lower n1 = PyStr.lower n2 ->
      ext_in (PyStr.lower (PyStr.splitext_ext n1)) exts
      = ext_in (PyStr.lower (PyStr.splitext_ext n2)) exts)
  /\ (forall (e : string) (exts1 exts2 : list string),
         forallb ascii_only exts1 = true -> forallb ascii_only exts2 = true ->
         map PyStr.lower exts1 = map PyStr.lower exts2 ->
         ext_in e exts1 = ext_in e exts2).
Proof.
  split.
  - intros n1 n2 exts _ _ H.
    now rewrite <- !splitext_ext_lower, H.
  - intros e exts1 exts2 _ _ H. unfold ext_in. now rewrite H.
Qed.

Lemma extension_filter_ignores_case_witness :
  ext_in (PyStr.lower (PyStr.splitext_ext "Annual.Report.CSV"))
         DEFAULT_ALLOWED_EXTENSIONS
  = ext_in (PyStr.lower (PyStr.splitext_ext "annual.report.csv"))
           DEFAULT_ALLOWED_EXTENSIONS.
Proof.
  apply (proj1 extension_filter_ignores_case); reflexivity.
Defined.

Lemma rfind_from_absent (c : ascii) (s : string) :
  str_contains c s = false ->
  forall i last, PyStr.rfind_from c s i last = last.
Proof.
  induction s as [|a s IH]; simpl; intros H i last; [reflexivity|].
  apply orb_false_elim in H as [Ha Hs]. rewrite Ha. now apply IH.
Qed.

Lemma rfind_from_lower_bound (c : ascii) (s : string) :
  forall i last, -1 <= last -> 0 <= i -> -1 <= PyStr.rfind_from c s i last.
Proof.
  induction s as [|a s IH]; simpl; intros i last Hl Hi; [assumption|].
  apply IH; [destruct (Ascii.eqb a c)|]; lia.
Qed.

(** A file name without a dot, and a name such as [.bashrc] whose only dot
    leads it, have the empty extension; a document so named is kept only
    by an allowed list that holds the empty string, hence never by the
    default list. *)
Theorem dotless_name_has_no_extension :
  (forall n : string,
      str_contains "."%char n = false -> PyStr.splitext_ext n = EmptyString)
  /\ (forall r : string,
         str_contains "."%char r = false -> str_contains "/"%char r = false ->
         PyStr.splitext_ext (String "."%char r) = EmptyString)
  /\ (forall (exts : list string) (limit : Z) (d : Document),
         PyStr.splitext_ext (attachment_name d) = EmptyString ->
         ~ In EmptyString exts ->
         admissible exts limit d = false).
Proof.
  split; [|split].
  - intros n H. unfold PyStr.splitext_ext, PyStr.rfind.
    rewrite (rfind_from_absent _ n H).
    pose proof (rfind_from_lower_bound "/"%char n 0 (-1)) as Hb.
    destruct (_ <? -1) eqn:E; [|reflexivity].
    apply Z.ltb_lt in E. lia.
  - intros r Hd Hs. unfold PyStr.splitext_ext, PyStr.rfind. simpl.
    rewrite (rfind_from_absent _ r Hd), (rfind_from_absent _ r Hs).
    reflexivity.
  - intros exts limit d He Hno. unfold admissible, extension_allowed.
    rewrite He. simpl PyStr.lower.
    destruct (ext_in EmptyString exts) eqn:E.
    + apply ext_in_empty_iff in E. contradiction.
    + now rewrite andb_false_r.
Qed.

Lemma dotless_name_has_no_extension_witness :
  PyStr.splitext_ext "README" = EmptyString
  /\ PyStr.splitext_ext ".bashrc" = EmptyString
  /\ admissible DEFAULT_ALLOWED_EXTENSIONS DEFAULT_SIZE_LIMIT_MB
       {| attributes := [AttrFilename "README"]; size := 10 |} = false.
Proof.
  split; [|split].
  - apply (proj1 dotless_name_has_no_extension). reflexivity.
  - apply (proj1 (proj2 dotless_name_has_no_extension)); reflexivity.
  - apply (proj2 (proj2 dotless_name_has_no_extension)).
    + reflexivity.
    + simpl. intuition discriminate.
Defined.

(** ** What [process_message] touches *)

(** [process_message] changes nothing but the trace, to which it adds at
    most one event: the probe of the path it records in [file_path], whose
    answer it records in [file_exists]. It never transfers nor writes. *)
Theorem process_message_only_probes
        (message : Message) (channel : Channel) (exts : list string)
        (limit : Z) (dir m : string) (s : State) :
  let r := process_message message channel exts limit dir m s in
  fs (snd r) = fs s
  /\ processed (snd r) = processed s
  /\ files_downloaded (snd r) = files_downloaded s
  /\ files_existed (snd r) = files_existed s
  /\ channel_data (snd r) = channel_data s
  /\ (trace (snd r) = trace s
      \/ exists (path : string) (file_data : FileData),
          fst r = inr [file_data]
          /\ file_path file_data = Some path
          /\ file_exists file_data = fs s path
          /\ trace (snd r) = trace s ++ [EvExists path]).
Proof.
  cbv zeta. rewrite process_message_cases.
  destruct (media message) as [|[d|]| |items];
    try (simpl; repeat split; now left).
  destruct (has_name d && extension_allowed exts d)%bool;
    [|simpl; repeat split; now left].
  destruct (true_div_mib (size d)) as [e|f]; [simpl; repeat split; now left|].
  destruct (Qle_bool f (inject_Z limit)); [|simpl; repeat split; now left].
  unfold accepted. destruct (String.eqb m "download").
  - simpl. repeat split. right. eexists. eexists. repeat split.
  - simpl. repeat split. now left.
Qed.

(** ** Transfers that fail, and names that collide *)



(** Two admissible attachments with the same combined name, in download
    mode, with a transfer that leaves the file at its path: the first is
    transferred, the second is taken for the first and never transferred,
    whatever its content; both have their rows. *)
Theorem same_combined_name_is_transferred_once
        (env : Env) (a : Args) (channel : Channel) (m1 m2 : Message)
        (d1 d2 : Document) (s : State) (fs' : FS) :
  mode a = "download"%string ->
  media m1 = MessageMediaDocument (Some d1) ->
  media m2 = MessageMediaDocument (Some d2) ->
  admissible (effective_extensions a) (maxsize_mb a) d1 = true ->
  admissible (effective_extensions a) (maxsize_mb a) d2 = true ->
  sanitize_filename m1 (attachment_name d1)
  = sanitize_filename m2 (attachment_name d2) ->
  let path := PyStr.path_join (effective_download_dir env a)
                (sanitize_filename m1 (attachment_name d1)) in
  fs s path = false ->
  download_media env (media m1) (Some path) (fs s) = inr fs' ->
  fs' path = true ->
  let r1 := process_one env a channel m1 s in
  let r2 := process_one env a channel m2 (snd r1) in
  fst r1 = inr tt /\ fst r2 = inr tt
  /\ files_downloaded (snd r2) = files_downloaded s + 1
  /\ files_existed (snd r2) = files_existed s + 1
  /\ channel_data (snd r2)
     = channel_data s ++ [entry_for channel m1 d1; entry_for channel m2 d2]
  /\ trace (snd r2)
     = trace s ++ [EvExists path; EvDownload (media m1) (Some path); EvSleep;
                   EvExists path; EvSleep].
Proof.
  intros Hmode Hm1 Hm2 Ha1 Ha2 Hname path Hfs Hdl Hfs'. cbv zeta.
  rewrite (process_one_admissible env a channel m1 d1 s Hm1 Ha1), Hmode.
  simpl String.eqb. cbv iota. fold path. rewrite Hfs, Hdl. cbn [fst snd].
  rewrite (process_one_admissible env a channel m2 d2 _ Hm2 Ha2), Hmode.
  simpl String.eqb. cbv iota. rewrite <- Hname. fold path. cbn [fs].
  rewrite Hfs'. cbn [fst snd files_downloaded files_existed channel_data trace].
  repeat split; try reflexivity; now rewrite <- app_assoc.
Qed.

Lemma same_combined_name_is_transferred_once_witness :
  let r1 := process_one (Samples.client []) (Samples.args 5 "download")
              Samples.news (Samples.csv_message 1) (start Samples.empty_fs) in
  let r2 := process_one (Samples.client []) (Samples.args 5 "download")
              Samples.news (Samples.csv_message 2) (snd r1) in
  files_downloaded (snd r2) = 1 /\ files_existed (snd r2) = 1.
Proof.
  destruct (same_combined_name_is_transferred_once
              (Samples.client []) (Samples.args 5 "download") Samples.news
              (Samples.csv_message 1) (Samples.csv_message 2)
              Samples.csv_doc Samples.csv_doc (start Samples.empty_fs)
              (fun p => (String.eqb p Samples.csv_path
                         || Samples.empty_fs p)%bool)
              eq_refl eq_refl eq_refl eq_refl eq_refl eq_refl eq_refl
              eq_refl eq_refl)
    as (_ & _ & H3 & H4 & _).
  cbv zeta. rewrite H3, H4. split; reflexivity.
Defined.

(** ** The trace of a run *)

Lemma count_events_app (kind : Event -> bool) (xs ys : list Event) :
  count_events kind (xs ++ ys)
  = (count_events kind xs + count_events kind ys)%nat.
Proof.
  unfold count_events. now rewrite filter_app, length_app.
Qed.

Lemma calm_app (xs ys : list Event) : calm xs -> calm ys -> calm (xs ++ ys).
Proof.
  unfold calm. intros Hx Hy. now rewrite forallb_app, Hx, Hy.
Qed.

Section TraceFacts.

Variable env : Env.
Variable a : Args.
Variable channel : Channel.

(** The events of one pass: no call to the writer, one pause exactly when
    the pass ends normally, and outside download mode nothing that touches
    the file system. *)
Lemma process_one_events (m : Message) (s : State) :
  let r := process_one env a channel m s in
  exists evs,
    trace (snd r) = trace s ++ evs
    /\ quiet evs
    /\ count_events is_sleep evs
       = (match fst r with inr _ => 1 | inl _ => 0 end)%nat
    /\ (String.eqb (mode a) "download" = false -> calm evs).
Proof.
  cbv zeta.
  destruct (entries_of_cases a channel m) as [E | [d [Hm [Hadm E]]]].
  - clear E. rewrite process_one_unfold, process_message_cases.
    destruct (media m) as [|[d|]| |items]; simpl;
      try (exists [EvSleep]; repeat split; reflexivity);
      try (exists []; rewrite app_nil_r; repeat split; reflexivity).
    destruct (has_name d && extension_allowed _ d)%bool; simpl;
      [|exists [EvSleep]; repeat split; reflexivity].
    destruct (true_div_mib (size d)) as [e|f]; simpl;
      [exists []; rewrite app_nil_r; repeat split; reflexivity|].
    destruct (Qle_bool f _); simpl;
      [|exists [EvSleep]; repeat split; reflexivity].
    unfold accepted. destruct (String.eqb (mode a) "download") eqn:Hmode.
    + cbn [handle_files]. unfold handle_file, bind.
      cbn [fst snd file_exists file_path]. rewrite Hmode.
      cbn [emit modify append_entry fst snd fs trace].
      destruct (fs s _).
      * simpl. eexists. rewrite <- app_assoc.
        repeat split; try reflexivity. discriminate.
      * unfold do_download, bind. simpl.
        destruct (download_media env _ _ (fs s)); simpl;
          eexists; rewrite <- ?app_assoc;
          repeat split; try reflexivity; discriminate.
    + cbn [handle_files]. unfold handle_file, bind. simpl. rewrite Hmode.
      simpl. exists [EvSleep]. repeat split; reflexivity.
  - rewrite (process_one_admissible env a channel m d s Hm Hadm).
    destruct (String.eqb (mode a) "download").
    + destruct (fs s _).
      * simpl. eexists. repeat split; try reflexivity. discriminate.
      * destruct (download_media env (media m) _ (fs s)); simpl;
          eexists; repeat split; try reflexivity; discriminate.
    + simpl. exists [EvSleep]. repeat split; reflexivity.
Qed.

Variable ending : option exn.

(** The events of the loop: it never writes; it pauses once for every pass
    but a failing one; outside download mode it leaves the file system
    alone. *)
Lemma iterate_events (messages : list Message) :
  forall s : State,
    let r := iterate env a channel messages ending s in
    exists evs,
      trace (snd r) = trace s ++ evs
      /\ quiet evs
      /\ (String.eqb (mode a) "download" = false -> calm evs)
      /\ (Z.of_nat (count_events is_sleep evs) <= processed (snd r) - processed s)
      /\ (fst r = inr tt ->
          Z.of_nat (count_events is_sleep evs) = processed (snd r) - processed s).
Proof.
  induction messages as [|m rest IH]; intro s; cbv zeta.
  - exists []. simpl. destruct ending; simpl; rewrite app_nil_r;
      repeat split; try reflexivity; lia.
  - rewrite iterate_cons.
    destruct (process_one_events m s) as [evs (Ht & Hq & Hs & Hc)].
    pose proof (process_one_effect env a channel m s) as (Hp & _).
    cbv zeta in Ht, Hs, Hp.
    destruct (process_one env a channel m s) as [[e|u] s1];
      cbn [fst snd] in Ht, Hs, Hp.
    + exists evs. cbn [fst snd]. rewrite Hs, Hp.
      repeat split; try assumption; try lia. discriminate.
    + destruct (max_limit a <=? processed s1).
      * exists evs. cbn [fst snd]. rewrite Hs, Hp.
        repeat split; try assumption; lia.
      * destruct (IH s1) as [evs' (Ht' & Hq' & Hc' & Hle & Heq)].
        cbv zeta in Ht', Hle, Heq.
        exists (evs ++ evs'). rewrite Ht', Ht, app_assoc, count_events_app, Hs.
        repeat split.
        -- now apply quiet_app.
        -- intro Hm. apply calm_app; auto.
        -- lia.
        -- intro Hr. specialize (Heq Hr). lia.
Qed.

(** The loop never makes more passes than the bound, one pass at least
    allowed. *)
Lemma iterate_processed_le (messages : list Message) :
  forall s : State,
    processed (snd (iterate env a channel messages ending s))
    <= processed s + Z.max (max_limit a - processed s) 1
    \/ messages = [].
Proof.
  induction messages as [|m rest IH]; intro s; [now right|]. left.
  rewrite iterate_cons.
  pose proof (process_one_effect env a channel m s) as (Hp & _).
  cbv zeta in Hp.
  destruct (process_one env a channel m s) as [[e|u] s1]; cbn [snd] in *.
  - lia.
  - destruct (max_limit a <=? processed s1) eqn:Hle; cbn [snd].
    + lia.
    + apply Z.leb_gt in Hle.
      destruct (IH s1) as [H | ->].
      * lia.
      * simpl. destruct ending; simpl; lia.
Qed.

End TraceFacts.


(** How the trace and the file system of a run are made up: the events of
    the loop, then the call to the writer or the report of the handler. *)
Lemma run_events (env : Env) (a : Args) (fs0 : FS) (channel : Channel) :
  get_entity env (channel_name a) = inr channel ->
  let r := export_documents env a fs0 in
  exists (evs last : list Event),
    trace (snd r) = evs ++ last
    /\ quiet evs
    /\ (String.eqb (mode a) "download" = false -> calm evs)
    /\ Z.of_nat (count_events is_sleep evs) <= processed (snd r)
    /\ (fst r = None -> Z.of_nat (count_events is_sleep evs) = processed (snd r))
    /\ match fst r with
       | Some e => last = [EvError e]
       | None =>
           if output a then
             exists file, output_file a = Some file
                          /\ last = [EvWrite file (display_name channel)
                                       (channel_data (snd r))]
           else last = []
       end.
Proof.
  intro Hch. cbv zeta. unfold export_documents.
  rewrite export_try_unfold, Hch. cbv zeta.
  destruct (iterate_events env a channel
              (snd (iter_messages env channel (max_limit a)))
              (fst (iter_messages env channel (max_limit a)))
              (loop_start fs0))
    as [evs (Ht & Hq & Hc & Hle & Heq)].
  cbv zeta in Ht, Hle, Heq.
  change (processed (loop_start fs0)) with 0 in Hle, Heq.
  change (trace (loop_start fs0)) with (@nil Event) in Ht.
  destruct (iterate env a channel _ _ (loop_start fs0)) as [[e|[]] s1];
    cbn [fst snd] in Ht, Hle, Heq.
  - exists evs, [EvError e]. simpl. rewrite Ht.
    repeat split; try assumption; try lia. discriminate.
  - specialize (Heq eq_refl).
    destruct (write_output_effect env a channel s1)
      as (_ & Hp & _ & _ & Hcd & Hw).
    cbv zeta in Hp, Hcd, Hw.
    destruct (write_output env a channel s1) as [[e|u] s2];
      cbn [fst snd] in Hp, Hcd, Hw.
    + exists evs, [EvError e]. simpl. rewrite Hw, Ht, Hp.
      repeat split; try assumption; try lia; try discriminate.
    + cbn [fst snd]. rewrite Hp.
      destruct (output a).
      * destruct Hw as [file [Hf Hw]].
        exists evs, [EvWrite file (display_name channel) (channel_data s2)].
        rewrite Hw, Ht, Hcd.
        repeat split; try assumption; try lia. now exists file.
      * exists evs, []. rewrite Hw, Ht, app_nil_r.
        repeat split; try assumption; lia.
Qed.



(** The pause follows every message, kept or not: a run has paused once
    for each message it processed when it ends normally, and never more
    often than it processed messages. *)
Theorem pause_follows_every_message
        (env : Env) (a : Args) (fs0 : FS) (channel : Channel) :
  get_entity env (channel_name a) = inr channel ->
  let r := export_documents env a fs0 in
  Z.of_nat (count_events is_sleep (trace (snd r))) <= processed (snd r)
  /\ (fst r = None ->
      Z.of_nat (count_events is_sleep (trace (snd r))) = processed (snd r)).
Proof.
  intro Hch. cbv zeta.
  destruct (run_events env a fs0 channel Hch)
    as [evs [last (Ht & _ & _ & Hle & Heq & Hl)]].
  cbv zeta in Ht, Hle, Heq, Hl. rewrite Ht, count_events_app.
  assert (Hlast : count_events is_sleep last = 0%nat).
  { destruct (fst (export_documents env a fs0)).
    - now subst last.
    - destruct (output a); [destruct Hl as [file [_ ->]] | subst last];
        reflexivity. }
  rewrite Hlast, Nat.add_0_r. split; assumption.
Qed.

(** Three messages, of which only the last carries a kept document: three
    pauses. *)
Lemma pause_follows_every_message_witness :
  let r := export_documents
             (Samples.client [Samples.two_documents;
                              {| msg_id := 9; date := Samples.posted;
                                 media := MediaOther |};
                              Samples.csv_message 3])
             (Samples.args 5 "list") Samples.empty_fs in
  processed (snd r) = 3
  /\ Z.of_nat (count_events is_sleep (trace (snd r))) = processed (snd r).
Proof.
  cbv zeta. split; [vm_compute; reflexivity|].
  refine (proj2 (pause_follows_every_message _ _ _ Samples.news _) _).
  - reflexivity.
  - vm_compute. reflexivity.
Defined.



(** A listing of two messages: the writer gets both rows, under the
    display name of the channel. *)
Lemma written_manifest_witness :
  let s := snd (export_documents
                  (Samples.client [Samples.csv_message 1; Samples.csv_message 2])
                  (Samples.args 5 "list") Samples.empty_fs) in
  exists file t,
    Some "20240106-news.json"%string = Some file
    /\ quiet t
    /\ trace s = t ++ [EvWrite file "News" (channel_data s)].
Proof.
  cbv zeta.
  refine (written_manifest
            (Samples.client [Samples.csv_message 1; Samples.csv_message 2])
            (Samples.args 5 "list") Samples.empty_fs Samples.news _ _ _ _).
  - reflexivity.
  - reflexivity.
  - vm_compute. reflexivity.
Defined.



(** However a run ends, it has started no more passes than the source
    yielded messages, and no more than the bound, one pass being allowed
    to a bound below one. *)
Theorem never_more_passes_than_bound (env : Env) (a : Args) (fs0 : FS) :
  let s := snd (export_documents env a fs0) in
  0 <= processed s <= Z.max (max_limit a) 1
  /\ forall channel : Channel,
      get_entity env (channel_name a) = inr channel ->
      processed s
      <= Z.of_nat (List.length (fst (iter_messages env channel (max_limit a)))).
Proof.
  cbv zeta. split.
  - unfold export_documents. rewrite export_try_unfold.
    destruct (get_entity env (channel_name a)) as [e|channel]; [simpl; lia|].
    cbv zeta.
    pose proof (iterate_processed_le env a channel
                  (snd (iter_messages env channel (max_limit a)))
                  (fst (iter_messages env channel (max_limit a)))
                  (loop_start fs0)) as Hle.
    destruct (iterate_invariant env a channel
                (snd (iter_messages env channel (max_limit a)))
                (fst (iter_messages env channel (max_limit a)))
                (loop_start fs0)) as [k (Hk & Hp & _)].
    cbv zeta in Hp.
    change (processed (loop_start fs0)) with 0 in Hle, Hp.
    assert (Hb : 0 <= processed
                        (snd (iterate env a channel
                                (fst (iter_messages env channel (max_limit a)))
                                (snd (iter_messages env channel (max_limit a)))
                                (loop_start fs0)))
                 <= Z.max (max_limit a) 1).
    { destruct Hle as [Hle | Hnil].
      - rewrite Z.sub_0_r in Hle. lia.
      - rewrite Hnil in Hk. simpl in Hk. lia. }
    destruct (iterate env a channel _ _ (loop_start fs0)) as [[e|u] s1];
      cbn [snd] in Hb; [simpl; exact Hb|].
    destruct (write_output_effect env a channel s1) as (_ & Hp' & _).
    cbv zeta in Hp'.
    destruct (write_output env a channel s1) as [[e|u'] s2];
      cbn [snd] in Hp'; simpl; rewrite Hp'; exact Hb.
  - intros channel Hch.
    destruct (run_invariant env a fs0 channel Hch) as [k (Hk & Hp & _)].
    cbv zeta in Hk, Hp. rewrite Hp. lia.
Qed.

Lemma never_more_passes_than_bound_witness :
  processed (snd (export_documents
                    (Samples.client [Samples.csv_message 1;
                                     Samples.csv_message 2])
                    (Samples.args 5 "list") Samples.empty_fs))
  <= Z.of_nat 2.
Proof.
  exact (proj2 (never_more_passes_than_bound
                  (Samples.client [Samples.csv_message 1; Samples.csv_message 2])
                  (Samples.args 5 "list") Samples.empty_fs)
               Samples.news eq_refl).
Defined.

(** ** [main] *)

Lemma str_contains_app (c : ascii) (x y : string) :
  str_contains c (x ++ y) = (str_contains c x || str_contains c y)%bool.
Proof.
  induction x as [|b x IH]; simpl; [reflexivity|].
  now rewrite IH, orb_assoc.
Qed.

Lemma str_contains_digits (c : ascii) (s : string) :
  is_digit c = false -> all_digits s = true -> str_contains c s = false.
Proof.
  intro Hc. induction s as [|b s IH]; simpl; [reflexivity|].
  intro H. apply andb_prop in H as [Hb Hs]. rewrite (IH Hs), orb_false_r.
  apply Ascii.eqb_neq. intros ->. congruence.
Qed.

Lemma remove_char_removes (old : ascii) (s : string) :
  str_contains old (remove_char old s) = false.
Proof.
  induction s as [|b s IH]; simpl; [reflexivity|].
  destruct (Ascii.eqb b old) eqn:E; [assumption|].
  simpl. now rewrite E, IH.
Qed.

Lemma replace_char_removes (old new : ascii) (s : string) :
  new <> old -> str_contains old (replace_char old new s) = false.
Proof.
  intro Hn. induction s as [|b s IH]; simpl; [reflexivity|].
  rewrite IH, orb_false_r.
  destruct (Ascii.eqb b old) eqn:E; [now apply Ascii.eqb_neq | assumption].
Qed.

Lemma replace_char_keeps_out (c old new : ascii) (s : string) :
  c <> new -> str_contains c s = false ->
  str_contains c (replace_char old new s) = false.
Proof.
  intro Hc. induction s as [|b s IH]; simpl; [reflexivity|].
  intro H. apply orb_false_elim in H as [Hb Hs]. rewrite (IH Hs), orb_false_r.
  destruct (Ascii.eqb b old); [|assumption].
  apply Ascii.eqb_neq. congruence.
Qed.

(** The name [main] gives the manifest file holds no path separator and no
    at-sign, whatever the channel argument holds: the file is always
    created in the current directory. *)
Theorem manifest_file_name_is_plain (today : datetime) (channel : string) :
  str_contains "/"%char (output_filename today channel) = false
  /\ str_contains "@"%char (output_filename today channel) = false.
Proof.
  unfold output_filename. cbv zeta. rewrite !str_contains_app. split.
  - rewrite (str_contains_digits "/"%char _ eq_refl
               (all_digits_strftime_Ymd today)).
    rewrite replace_char_removes by discriminate. reflexivity.
  - rewrite (str_contains_digits "@"%char _ eq_refl
               (all_digits_strftime_Ymd today)).
    rewrite replace_char_keeps_out;
      [reflexivity | discriminate | apply remove_char_removes].
Qed.

(** Without a channel argument [main] fails before the export starts; with
    one, a run that ends normally has called the writer last, for the file
    named after the day and the channel, with the rows of the manifest
    under the display name of the channel. *)
Theorem main_writes_named_manifest
        (env : Env) (today : datetime) (args : Namespace) (fs0 : FS) :
  (arg_channel args = None -> main env today args fs0 = inl AttributeError)
  /\ forall (c : string) (channel : Channel) (s : State),
      arg_channel args = Some c ->
      get_entity env c = inr channel ->
      main env today args fs0 = inr (None, s) ->
      exists t,
        quiet t
        /\ trace s
           = t ++ [EvWrite (output_filename today c) (display_name channel)
                     (channel_data s)].
Proof.
  unfold main. split.
  - now intros ->.
  - intros c channel s Hc Hch. rewrite Hc. intro H. injection H as H.
    destruct (run_events env (main_args today args c) fs0 channel Hch)
      as [evs [last (Ht & Hq & _ & _ & _ & Hl)]].
    cbv zeta in Ht, Hl. rewrite H in Ht, Hl. cbn [fst snd output main_args] in *.
    destruct Hl as [file [Hf ->]]. injection Hf as <-.
    now exists evs.
Qed.

Lemma main_writes_named_manifest_witness :
  main (Samples.client [Samples.csv_message 1]) Cases.day (Cases.parsed None)
       Samples.empty_fs
  = inl AttributeError.
Proof.
  apply (proj1 (main_writes_named_manifest
                  (Samples.client [Samples.csv_message 1]) Cases.day
                  (Cases.parsed None) Samples.empty_fs)).
  reflexivity.
Defined.

(** ** Rows and passes *)

Lemma length_entries_of (exts : list string) (limit : Z) (channel : Channel)
      (m : Message) :
  (List.length (entries_of exts limit channel m) <= 1)%nat.
Proof.
  unfold entries_of, attachments. rewrite length_map.
  destruct (media m) as [|[d|]| |items]; simpl; try lia.
  destruct (admissible exts limit d); simpl; lia.
Qed.

Lemma length_flat_map_entries (exts : list string) (limit : Z)
      (channel : Channel) (messages : list Message) :
  (List.length (flat_map (entries_of exts limit channel) messages)
   <= List.length messages)%nat.
Proof.
  induction messages as [|m rest IH]; simpl; [lia|].
  rewrite length_app.
  pose proof (length_entries_of exts limit channel m). lia.
Qed.

(** A message contributes one row at most: whatever the run did, its
    manifest has no more rows than it processed messages. *)
Theorem no_more_rows_than_messages (env : Env) (a : Args) (fs0 : FS) :
  let s := snd (export_documents env a fs0) in
  Z.of_nat (List.length (channel_data s)) <= processed s.
Proof.
  cbv zeta.
  destruct (get_entity env (channel_name a)) as [e|channel] eqn:Hch.
  - unfold export_documents. rewrite export_try_unfold, Hch. simpl. lia.
  - destruct (run_invariant env a fs0 channel Hch) as [k (Hk & Hp & Hc & _)].
    cbv zeta in Hk, Hp, Hc. rewrite Hp, Hc.
    pose proof (length_flat_map_entries (effective_extensions a) (maxsize_mb a)
                  channel
                  (firstn k (fst (iter_messages env channel (max_limit a)))))
      as Hlen.
    rewrite length_firstn in Hlen. lia.
Qed.

(** ** The size check on real limits *)

Lemma round53_large (b : Z) : 2 ^ 53 <= b -> 2 ^ 53 <= round53 b.
Proof.
  intro Hb. unfold round53.
  assert (Hpos : 0 < b) by lia.
  rewrite (Z.abs_eq b) by lia.
  destruct (b <? 2 ^ 53) eqn:E; [apply Z.ltb_lt in E; lia|]. clear E.
  assert (Hlog : 53 <= Z.log2 b).
  { change 53 with (Z.log2 (2 ^ 53)). now apply Z.log2_le_mono. }
  set (e := Z.log2 b - 52).
  assert (He : 1 <= e) by (unfold e; lia).
  set (q := Z.shiftr b e).
  assert (Hq : 2 ^ 52 <= q).
  { unfold q. rewrite Z.shiftr_div_pow2 by lia.
    apply Z.div_le_lower_bound; [apply Z.pow_pos_nonneg; lia|].
    rewrite <- Z.pow_add_r by lia.
    replace (e + 52) with (Z.log2 b) by (unfold e; lia).
    apply (Z.log2_spec b Hpos). }
  rewrite (Z.sgn_pos b Hpos), Z.mul_1_l.
  assert (Hpow : 2 <= 2 ^ e).
  { change 2 with (2 ^ 1) at 1. apply Z.pow_le_mono_r; lia. }
  destruct ((2 ^ (e - 1) <? b - Z.shiftl q e)
            || ((b - Z.shiftl q e =? 2 ^ (e - 1)) && Z.odd q))%bool;
    rewrite Z.shiftl_mul_pow2 by lia;
    change (2 ^ 53) with (2 ^ 52 * 2); nia.
Qed.

(** For every limit below [2^33] MiB and every size, however large, the
    check keeps the document exactly when its size in bytes is at most the
    limit in bytes: the rounding of the quotient never decides. *)
Theorem size_check_exact_for_real_limits (limit : Z) (d : Document) :
  Z.abs limit < 2 ^ 33 ->
  0 <= size d ->
  (size_within limit d = true <-> size d <= limit * (1024 * 1024)).
Proof.
  intros Hl Hs. unfold size_within.
  destruct (Z_le_gt_dec (size d) (2 ^ 53)) as [Hsmall | Hbig].
  - rewrite true_div_mib_exact by (rewrite Z.abs_eq; lia).
    rewrite Qle_bool_iff. unfold Qle, inject_Z. simpl.
    change (Z.pos (2 ^ 20)) with (1024 * 1024). lia.
  - assert (Hr : 2 ^ 53 <= round53 (size d)) by (apply round53_large; lia).
    assert (Hlim : limit * (1024 * 1024) < 2 ^ 53).
    { change (2 ^ 53) with (2 ^ 33 * (1024 * 1024)). lia. }
    unfold true_div_mib.
    destruct (2 ^ 1044 <=? Z.abs (round53 (size d))).
    + split; [discriminate | lia].
    + split.
      * intro H. apply Qle_bool_iff in H. unfold Qle, inject_Z in H.
        simpl in H. change (Z.pos (2 ^ 20)) with (1024 * 1024) in H. lia.
      * lia.
Qed.

(** The default limit keeps a document of three GiB and passes over one
    that is a byte larger. *)
Lemma size_check_exact_for_real_limits_witness :
  size_within DEFAULT_SIZE_LIMIT_MB
    {| attributes := []; size := 3 * 1024 * 1024 * 1024 |} = true
  /\ size_within DEFAULT_SIZE_LIMIT_MB
       {| attributes := []; size := 3 * 1024 * 1024 * 1024 + 1 |} = false.
Proof.
  split.
  - apply size_check_exact_for_real_limits; simpl; lia.
  - apply not_true_is_false. intro H.
    apply size_check_exact_for_real_limits in H; simpl in *; lia.
Defined.
